(** * Student_detector: the face-matching service and its frame loop

    A shallow embedding of the Python sources

      - [app/models/insightface_service.py]  (gallery load, matching, analyze)
      - [app/models/face_recognizer.py]      (the legacy recognizer)
      - [app/controllers/face_controller.py] (overlay assembly)
      - [app/views/video_view.py]            (key polling)
      - [app/utils/helpers.py]               (the frame-rate generator)
      - [app/main.py]                        (the driver loop and its shutdown)

    Modelling conventions.

      - A Python [float] (and a numpy scalar converted by [float(...)]) is an
        exact rational [Q]: comparisons, subtraction and division are the
        mathematical ones.  Rounding, infinities and NaN are outside the
        model.  Two confidences are compared with [==] ([Qeq]).
      - A call either returns or raises: [outcome A] is [Ok a] or [Raise e]; [/] raises
        [ZeroDivisionError] on a zero divisor and [l[i]] raises [IndexError]
        out of range, as the interpreter does.
      - The collaborators the repository delegates to (the InsightFace
        detector [FaceAnalysis.get], numpy row subtraction and
        [np.linalg.norm], the camera, the OpenCV window, the clock) are
        parameters or scripted inputs; the repository's own control flow is
        translated statement by statement. *)

From Stdlib Require Import List String Bool Arith ZArith QArith Qabs Qround
  DecimalString Lia Lqa.
Import ListNotations.

Set Implicit Arguments.

Local Open Scope Q_scope.

(** ** Exceptions and results *)

Inductive exn : Type :=
| ZeroDivisionError
| IndexError
| ValueError
| FileNotFoundError
| NotADirectoryError
| KeyboardInterrupt
| RuntimeError.

Inductive outcome (A : Type) : Type :=
| Ok (a : A)
| Raise (e : exn).

Arguments Ok {A} a.
Arguments Raise {A} e.

Definition bind {A B : Type} (c : outcome A) (k : A -> outcome B) : outcome B :=
  match c with
  | Ok a => k a
  | Raise e => Raise e
  end.

Notation "x <- c ;; k" := (bind c (fun x => k))
  (at level 61, c at next level, right associativity).

Fixpoint mapM {A B : Type} (f : A -> outcome B) (l : list A) : outcome (list B) :=
  match l with
  | [] => Ok []
  | x :: l' =>
      y <- f x ;;
      ys <- mapM f l' ;;
      Ok (y :: ys)
  end.

(** ** The Python builtins the sources use *)

Module Py.

(** [x < y] on floats. *)
Definition ltb (x y : Q) : bool := negb (Qle_bool y x).

(** [x <= y] on floats. *)
Definition leb (x y : Q) : bool := Qle_bool x y.

(** [max(a, b)]: the running maximum starts at [a] and is replaced by [b]
    only when [b > a]. *)
Definition max (a b : Q) : Q := if ltb a b then b else a.

(** [min(a, b)]: the running minimum starts at [a] and is replaced by [b]
    only when [b < a]. *)
Definition min (a b : Q) : Q := if ltb b a then b else a.

(** [a / b] on floats. *)
Definition truediv (a b : Q) : outcome Q :=
  if Qeq_bool b 0 then Raise ZeroDivisionError else Ok (a / b).

(** [l[i]] for a non-negative index. *)
Definition getitem {A : Type} (l : list A) (i : nat) : outcome A :=
  match nth_error l i with
  | Some x => Ok x
  | None => Raise IndexError
  end.

(** [max(best :: l, key=key)]: the running maximum starts at the first
    element and is replaced only by a later element of strictly larger
    key. *)
Fixpoint max_key_from {A : Type} (key : A -> Q) (best : A) (l : list A) : A :=
  match l with
  | [] => best
  | x :: l' =>
      if ltb (key best) (key x) then max_key_from key x l'
      else max_key_from key best l'
  end.

End Py.

(** ** numpy *)

Module Np.

(** The scan of [np.argmin]: [best] is the least value seen so far, found at
    index [best_i]; a later element replaces it only when strictly
    smaller, so the first occurrence of the minimum is returned. *)
Fixpoint argmin_from (best_i : nat) (best : Q) (i : nat) (l : list Q) : nat :=
  match l with
  | [] => best_i
  | x :: l' =>
      if Py.ltb x best then argmin_from i x (S i) l'
      else argmin_from best_i best (S i) l'
  end.

(** [np.argmin(a)] for a one-dimensional array; an empty one is refused. *)
Definition argmin (a : list Q) : outcome nat :=
  match a with
  | [] => Raise ValueError
  | x :: l => Ok (argmin_from 0 x 1 l)
  end.

(** [x.astype(int)] on one coordinate: truncation toward zero. *)
Definition astype_int (x : Q) : Z := Z.quot (Qnum x) (Zpos (Qden x)).

End Np.

(** ** The detection and embedding capability

    One face as [FaceAnalysis.get] reports it: [bbox] is [(x1, y1, x2, y2)]
    and [embedding] the ArcFace vector. *)

Record Face (E : Type) : Type := mkFace {
  bbox : Q * Q * Q * Q;
  embedding : E
}.

(** What the repository takes from InsightFace and numpy.  [sub_row g e] is
    one row of [encodings_array - embedding] and [linalg_norm] the entry
    of [np.linalg.norm(diff, axis=1)] for that row. *)
Class Backend : Type := {
  Image : Type;
  Embedding : Type;
  get : Image -> list (Face Embedding);
  sub_row : Embedding -> Embedding -> Embedding;
  linalg_norm : Embedding -> Q
}.

(** ** The gallery directory as [pathlib] answers for it

    [File] is what reading one path matched by [glob("*.jpg")] gives. *)

Module pathlib.
Section Paths.
Variable File : Type.

Record Entry : Type := mkEntry {
  name : string;
  is_dir : bool;
  glob_jpg : list File
}.

Inductive Path : Type :=
| Missing
| NotADirectory
| Directory (entries : list Entry).

Definition exists_ (p : Path) : bool :=
  match p with
  | Missing => false
  | _ => true
  end.

Definition iterdir (p : Path) : outcome (list Entry) :=
  match p with
  | Directory entries => Ok entries
  | NotADirectory => Raise NotADirectoryError
  | Missing => Raise FileNotFoundError
  end.
End Paths.

Arguments Missing {File}.
Arguments NotADirectory {File}.
End pathlib.

(** ** [app/models/face_recognizer.py]: the result record *)

Module face_recognizer.

Record RecognitionResult : Type := mkRecognitionResult {
  name : string;
  confidence : Q
}.

End face_recognizer.

(** ** [app/views/video_view.py] *)

Module video_view.

Record VideoOverlayFace : Type := mkVideoOverlayFace {
  box : Z * Z * Z * Z;
  label : string;
  confidence : Q
}.

(** [VideoView.process_events], on the value [cv2.waitKey(1)] returned:
    [False] asks to quit (ESC is 27, ["q"] is 113). *)
Definition process_events (waitKey : Z) : bool :=
  let key := Z.land waitKey 255 in
  if (key =? 27)%Z || (key =? 113)%Z then false else true.

End video_view.

(** ** [app/models/insightface_service.py] *)

Module insightface_service.
Import face_recognizer.

Section Service.
Context {B : Backend}.

Record InsightFaceRecognizedFace : Type := mkInsightFaceRecognizedFace {
  box : Z * Z * Z * Z;
  result : RecognitionResult
}.

(** The fields the methods below read or write; [known_faces_dir] stands
    for what the file system holds at that path, each matched file
    being what [cv2.imread] gives for it ([None] when unreadable).
    [model_pack], [ctx_id] and [det_size] only configure the detector,
    which is the [Backend]. *)
Record InsightFaceService : Type := mkInsightFaceService {
  known_faces_dir : pathlib.Path (option Image);
  tolerance : Q;
  _encodings : list Embedding;
  _names : list string
}.

Definition _area (face : Face Embedding) : Q :=
  let '(x1, y1, x2, y2) := bbox face in (x2 - x1) * (y2 - y1).

Definition _compute_embedding_for_image (image_bgr : Image) : option Embedding :=
  match get image_bgr with
  | [] => None
  | face :: faces => Some (embedding (Py.max_key_from _area face faces))
  end.

(** The two [append] calls at the end of the inner loop body. *)
Definition append_known (self : InsightFaceService)
    (e : Embedding) (n : string) : InsightFaceService :=
  {| known_faces_dir := known_faces_dir self;
     tolerance := tolerance self;
     _encodings := _encodings self ++ [e];
     _names := _names self ++ [n] |}.

(** One pass of [for image_path in person_dir.glob("*.jpg")]. *)
Definition load_image (n : string) (self : InsightFaceService)
    (image : option Image) : InsightFaceService :=
  match image with
  | None => self
  | Some img =>
      match _compute_embedding_for_image img with
      | None => self
      | Some e => append_known self e n
      end
  end.

(** One pass of [for person_dir in self.known_faces_dir.iterdir()]. *)
Definition load_person (self : InsightFaceService)
    (person_dir : pathlib.Entry (option Image)) : InsightFaceService :=
  if negb (pathlib.is_dir person_dir) then self
  else fold_left (load_image (pathlib.name person_dir))
                 (pathlib.glob_jpg person_dir) self.

Definition _load_known_faces (self : InsightFaceService)
    : outcome InsightFaceService :=
  if negb (pathlib.exists_ (known_faces_dir self)) then Ok self
  else
    entries <- pathlib.iterdir (known_faces_dir self) ;;
    Ok (fold_left load_person entries self).

(** The dataclass constructor followed by [__post_init__]: both lists
    start empty and the gallery is loaded. *)
Definition __post_init__ (dir : pathlib.Path (option Image)) (tol : Q)
    : outcome InsightFaceService :=
  _load_known_faces
    {| known_faces_dir := dir; tolerance := tol;
       _encodings := []; _names := [] |}.

(** [np.linalg.norm(np.stack(self._encodings) - embedding, axis=1)]. *)
Definition distances_to (self : InsightFaceService) (e : Embedding) : list Q :=
  map (fun row => linalg_norm (sub_row row e)) (_encodings self).

Definition unknown : RecognitionResult :=
  {| name := "Unknown"; confidence := 0 |}.

Definition _match_embedding (self : InsightFaceService) (e : Embedding)
    : outcome RecognitionResult :=
  match _encodings self with
  | [] => Ok unknown
  | _ :: _ =>
      let distances := distances_to self e in
      best_index <- Np.argmin distances ;;
      best_distance <- Py.getitem distances best_index ;;
      if Py.leb best_distance (tolerance self) then
        ratio <- Py.truediv best_distance (tolerance self) ;;
        let conf := Py.max 0 (Py.min 1 (1 - ratio)) in
        n <- Py.getitem (_names self) best_index ;;
        Ok {| name := n; confidence := conf |}
      else Ok unknown
  end.

(** One pass of the loop of [analyze]. *)
Definition analyze_face (self : InsightFaceService) (face : Face Embedding)
    : outcome InsightFaceRecognizedFace :=
  let '(x1, y1, x2, y2) := bbox face in
  let '(x1, y1, x2, y2) :=
    (Np.astype_int x1, Np.astype_int y1, Np.astype_int x2, Np.astype_int y2) in
  let '(top, right_, bottom, left_) := (y1, x2, y2, x1) in
  recog <- _match_embedding self (embedding face) ;;
  Ok {| box := (top, right_, bottom, left_); result := recog |}.

Definition analyze (self : InsightFaceService) (frame_bgr : Image)
    : outcome (list InsightFaceRecognizedFace) :=
  mapM (analyze_face self) (get frame_bgr).

End Service.
End insightface_service.

(** ** [app/controllers/face_controller.py] *)

Module face_controller.
Import face_recognizer video_view.

Section Controller.
Context {B : Backend}.

Definition overlay_of (face : insightface_service.InsightFaceRecognizedFace)
    : VideoOverlayFace :=
  {| box := insightface_service.box face;
     label := name (insightface_service.result face);
     confidence := face_recognizer.confidence (insightface_service.result face) |}.

(** [FaceController.process_frame], [self.service] being [service]. *)
Definition process_frame (service : insightface_service.InsightFaceService)
    (frame_bgr : Image) : outcome (list VideoOverlayFace) :=
  faces <- insightface_service.analyze service frame_bgr ;;
  Ok (map overlay_of faces).

End Controller.
End face_controller.

(** ** [app/models/face_recognizer.py]: [SimpleFaceRecognizer.recognize]

    [face_recognition.face_encodings(frame_rgb, face_locations)] is the
    parameter [face_encodings]; [face_recognition.face_distance] is the row
    norm of the [Backend]. *)

Module simple_face_recognizer.
Import face_recognizer.

Section Recognizer.
Context {B : Backend}.
Variable face_encodings : Image -> list (Z * Z * Z * Z) -> list Embedding.

Record SimpleFaceRecognizer : Type := mkSimpleFaceRecognizer {
  tolerance : Q;
  _encodings : list Embedding;
  _names : list string
}.

Definition unknown : RecognitionResult :=
  {| name := "Unknown"; confidence := 0 |}.

(** One pass of [for enc in encodings]. *)
Definition recognize_one (self : SimpleFaceRecognizer) (enc : Embedding)
    : outcome RecognitionResult :=
  let distances :=
    map (fun row => linalg_norm (sub_row row enc)) (_encodings self) in
  best_index <- Np.argmin distances ;;
  best_distance <- Py.getitem distances best_index ;;
  if Py.leb best_distance (tolerance self) then
    ratio <- Py.truediv best_distance (tolerance self) ;;
    let conf := Py.max 0 (Py.min 1 (1 - ratio)) in
    n <- Py.getitem (_names self) best_index ;;
    Ok {| name := n; confidence := conf |}
  else Ok unknown.

Definition recognize (self : SimpleFaceRecognizer) (frame_rgb : Image)
    (face_locations : list (Z * Z * Z * Z)) : outcome (list RecognitionResult) :=
  match _encodings self with
  | [] => Ok (map (fun _ => unknown) face_locations)
  | _ :: _ =>
      let encodings := face_encodings frame_rgb face_locations in
      results <- mapM (recognize_one self) encodings ;;
      Ok (if (List.length results <? List.length face_locations)%nat
          then results
               ++ repeat unknown (List.length face_locations - List.length results)
          else results)
  end.

End Recognizer.
End simple_face_recognizer.

(** ** [app/utils/helpers.py]

    The generator object of [measure_fps()].  [perf_counter k] is what the
    [k]-th call of [time.perf_counter] returns; [calls] counts the calls the
    generator has made.  Its body runs only inside [next]: [last_time] is
    [None] until the first [next] has executed the line before the loop. *)

Module helpers.

Record fps_gen : Type := mkFpsGen {
  last_time : option Q;
  calls : nat
}.

Definition measure_fps : fps_gen := {| last_time := None; calls := 0 |}.

(** [next(fps_gen)]: run to the next [yield]. *)
Definition next (perf_counter : nat -> Q) (g : fps_gen)
    : outcome ((Q * Q) * fps_gen) :=
  let '(last, k) :=
    match last_time g with
    | Some t => (t, calls g)
    | None => (perf_counter (calls g), S (calls g))
    end in
  let current_time := perf_counter k in
  let delta := current_time - last in
  fps <- (if Py.ltb 0 delta then Py.truediv 1 delta else Ok 0) ;;
  Ok ((delta, fps), {| last_time := Some current_time; calls := S k |}).

(** What the generator yields at iteration [n] (from 0). *)
Fixpoint nth_yield (perf_counter : nat -> Q) (n : nat) (g : fps_gen)
    : outcome (Q * Q) :=
  r <- next perf_counter g ;;
  match n with
  | O => Ok (fst r)
  | S n' => nth_yield perf_counter n' (snd r)
  end.

(** The generator after [k] resumptions. *)
Fixpoint advance (perf_counter : nat -> Q) (k : nat) (g : fps_gen) : fps_gen :=
  match k with
  | O => g
  | S k' =>
      match next perf_counter g with
      | Ok (_, g') => advance perf_counter k' g'
      | Raise _ => g
      end
  end.

End helpers.

(** ** [app/main.py]: the loop of [run] and its [finally]

    The calls the driver makes on its collaborators are recorded as a trace
    of events.  What the collaborators answer in one pass of the loop is an
    [iteration]; a script is a finite prefix of such answers, after which
    the loop is still running.  The logger and the two cleanup calls of
    [finally] are taken to return. *)

Module main.
Import video_view.

Section Run.
Context {B : Backend}.

Inductive level : Type := INFO | WARNING.

Inductive event : Type :=
| Log (lv : level) (msg : string)
| GetFrame
| ProcessFrame (frame : Image)
| RenderFrame (frame : Image) (overlays : list VideoOverlayFace) (fps : Q)
| Tick
| ViewClose
| CameraShutdown.

Record iteration : Type := mkIteration {
  get_frame : outcome (bool * Image);
  render_frame : outcome unit;
  waitKey : outcome Z
}.

Inductive control : Type :=
| Continue
| Break
| Raised (e : exn).

(** The body of the [for] loop, [fps] being what the generator yielded. *)
Definition body (service : insightface_service.InsightFaceService)
    (it : iteration) (fps : Q) : list event * control :=
  match get_frame it with
  | Raise e => ([GetFrame], Raised e)
  | Ok (success, frame) =>
      if negb success then
        ([GetFrame; Log WARNING "Failed to read frame from camera"], Continue)
      else
        match face_controller.process_frame service frame with
        | Raise e => ([GetFrame; ProcessFrame frame], Raised e)
        | Ok overlays =>
            let shown := [GetFrame; ProcessFrame frame;
                          RenderFrame frame overlays fps] in
            match render_frame it with
            | Raise e => (shown, Raised e)
            | Ok _ =>
                match waitKey it with
                | Raise e => (shown ++ [Tick], Raised e)
                | Ok key =>
                    if negb (process_events key) then
                      (shown ++ [Tick; Log INFO "User requested shutdown"],
                       Break)
                    else (shown ++ [Tick], Continue)
                end
            end
        end
  end.

(** [for delta, fps in fps_gen: ...] over the scripted passes. *)
Fixpoint loop (service : insightface_service.InsightFaceService)
    (perf_counter : nat -> Q) (script : list iteration)
    (g : helpers.fps_gen) : list event * option control :=
  match script with
  | [] => ([], None)
  | it :: rest =>
      match helpers.next perf_counter g with
      | Raise e => ([], Some (Raised e))
      | Ok (_, fps, g') =>
          let '(evs, c) := body service it fps in
          match c with
          | Continue =>
              let '(tr, st) := loop service perf_counter rest g' in
              (evs ++ tr, st)
          | _ => (evs, Some c)
          end
      end
  end.

Inductive status : Type :=
| StillLooping
| Returned
| Propagated (e : exn).

Definition shutdown : list event :=
  [Log INFO "Shutting down"; ViewClose; CameraShutdown].

(** [run()] from [fps_gen = measure_fps()] on, the camera, the service
    and the view being constructed: the [try], its [except
    KeyboardInterrupt] and its [finally]. *)
Definition run (service : insightface_service.InsightFaceService)
    (perf_counter : nat -> Q) (script : list iteration)
    : list event * status :=
  let '(tr, st) := loop service perf_counter script helpers.measure_fps in
  match st with
  | None | Some Continue => (tr, StillLooping)
  | Some Break => (tr ++ shutdown, Returned)
  | Some (Raised KeyboardInterrupt) =>
      (tr ++ [Log INFO "Interrupted by user"] ++ shutdown, Returned)
  | Some (Raised e) => (tr ++ shutdown, Propagated e)
  end.

(** What a pass logs when the camera gives no frame. *)
Definition warning_read_failed : event :=
  Log WARNING "Failed to read frame from camera".

Definition is_view_close (ev : event) : bool :=
  match ev with ViewClose => true | _ => false end.

Definition is_camera_shutdown (ev : event) : bool :=
  match ev with CameraShutdown => true | _ => false end.

Definition is_processing (ev : event) : bool :=
  match ev with
  | ProcessFrame _ | RenderFrame _ _ _ | Tick => true
  | _ => false
  end.

(** How often, and where first, a kind of event occurs in a trace. *)
Definition occurrences (p : event -> bool) (tr : list event) : nat :=
  List.length (filter p tr).


End Run.
End main.

(** ** The vocabulary of the specification *)

(** [clamp x lo hi], the way the specification words it. *)
Definition clamp (x lo hi : Q) : Q :=
  if Py.ltb x lo then lo else if Py.ltb hi x then hi else x.

(** [d] is the least entry of [a], and [i] the first index holding it. *)
Definition first_minimum (a : list Q) (i : nat) (d : Q) : Prop :=
  nth_error a i = Some d
  /\ (forall j x, nth_error a j = Some x -> d <= x)
  /\ (forall j x, (j < i)%nat -> nth_error a j = Some x -> d < x).

(** The box of an overlay, [(top, right, bottom, left)] in whole pixels, for
    a detector box [(x1, y1, x2, y2)]. *)
Definition box_of (b : Q * Q * Q * Q) : Z * Z * Z * Z :=
  let '(x1, y1, x2, y2) := b in
  (Np.astype_int y1, Np.astype_int x2, Np.astype_int y2, Np.astype_int x1).

(** The two parallel lists of a service have one label per embedding. *)
Definition paired {B : Backend}
    (self : insightface_service.InsightFaceService) : Prop :=
  List.length (insightface_service._encodings self)
  = List.length (insightface_service._names self).




(** ** A concrete backend and concrete inputs

    Embeddings of dimension one: the row difference is the difference of
    the two numbers and the Euclidean norm its absolute value.  An image is
    given by the faces the detector finds in it. *)

Definition line_backend : Backend :=
  {| Image := list (Face Q);
     Embedding := Q;
     get := fun image => image;
     sub_row := Qminus;
     linalg_norm := Qabs |}.

Module Sample.
Import insightface_service.

#[local] Existing Instance line_backend.

Definition service (tol : Q) (entries : list (string * Q))
    : InsightFaceService :=
  {| known_faces_dir := pathlib.Missing;
     tolerance := tol;
     _encodings := map snd entries;
     _names := map fst entries |}.

Definition alice : InsightFaceService := service 0.8 [("Alice"%string, 1)].

(** Two stored faces at the same distance from the query [2]. *)
Definition twins : InsightFaceService :=
  service 0.8 [("Carol"%string, 5); ("Alice"%string, 1.5);
               ("Bob"%string, 2.5); ("Dave"%string, 1.5)].

Definition zero_tolerance : InsightFaceService :=
  service 0 [("Alice"%string, 1)].

(** The legacy recognizer over the same gallery, and a stand-in for
    [face_recognition.face_encodings] that sees the stored face at every
    location. *)
Definition legacy_zero_tolerance
    : simple_face_recognizer.SimpleFaceRecognizer :=
  simple_face_recognizer.mkSimpleFaceRecognizer 0 (map snd [("Alice"%string, 1)])
    ["Alice"%string].

Definition sees_alice (frame : list (Face Q)) (locations : list (Z * Z * Z * Z))
    : list Q :=
  map (fun _ => 1) locations.

Definition one_face (e : Q) : Face Q :=
  {| bbox := (10.5, 20.25, 110, 140.75); embedding := e |}.

Definition known_faces : pathlib.Path (option (list (Face Q))) :=
  pathlib.Directory
    [ pathlib.mkEntry "Alice" true
        [Some [one_face 1]; None; Some [];
         Some [one_face 3; {| bbox := (0, 0, 200, 200); embedding := 4 |}]];
      pathlib.mkEntry "notes.txt" false [];
      pathlib.mkEntry "Bob" true [Some [one_face 2]] ].

(** A clock that advances by 40 ms per reading. *)
Definition clock (k : nat) : Q := inject_Z (Z.of_nat k) * 0.04.

Definition seen (frame : list (Face Q)) (key : Z) : main.iteration :=
  {| main.get_frame := Ok (true, frame);
     main.render_frame := Ok tt;
     main.waitKey := Ok key |}.

Definition dropped : main.iteration :=
  {| main.get_frame := Ok (false, []);
     main.render_frame := Ok tt;
     main.waitKey := Ok (-1)%Z |}.


Definition no_key : Z := (-1)%Z.
Definition key_q : Z := 113%Z.

(** Five passes, the camera failing on the third. *)
Definition five_passes : list main.iteration :=
  [seen [one_face 1.3] no_key; seen [] no_key; dropped;
   seen [one_face 1.9] no_key; seen [one_face 1] no_key].

End Sample.

(** ** More Python builtins: [int] and number formatting *)

Module PyNum.

(** [int(x)] on a float: truncation toward zero. *)
Definition int (x : Q) : Z := Z.quot (Qnum x) (Zpos (Qden x)).

(** The nearest integer, a tie going to the even neighbour: how [format]
    rounds the digits it drops. *)
Definition round_half_even (x : Q) : Z :=
  let f := Qfloor x in
  let r := x - inject_Z f in
  if Py.ltb r (1 # 2) then f
  else if Py.ltb (1 # 2) r then (f + 1)%Z
  else if Z.even f then f else (f + 1)%Z.

(** The decimal digits of a non-negative integer. *)
Definition digits (n : Z) : string :=
  NilZero.string_of_uint (N.to_uint (Z.to_N n)).

Definition sign (x : Q) : string := if Py.ltb x 0 then "-" else "".

(** [f"{x:.0f}"]. *)
Definition format_0f (x : Q) : string :=
  (sign x ++ digits (round_half_even (Qabs x)))%string.

(** [f"{x:.1f}"]. *)
Definition format_1f (x : Q) : string :=
  let n := round_half_even (Qabs x * 10) in
  (sign x ++ digits (n / 10) ++ "." ++ digits (n mod 10))%string.

End PyNum.

(** ** [app/views/video_view.py]: [VideoView.show_frame]

    The OpenCV calls made on the copy of the frame, in order; the font,
    always [cv2.FONT_HERSHEY_SIMPLEX], is left out of [putText]. *)

Module video_view_draw.
Import video_view.

Inductive draw : Type :=
| rectangle (pt1 pt2 : Z * Z) (color : Z * Z * Z) (thickness : Z)
| putText (text : string) (org : Z * Z) (fontScale : Q)
    (color : Z * Z * Z) (thickness : Z)
| imshow (winname : string).

(** [cv2.FILLED]. *)
Definition FILLED : Z := (-1)%Z.

(** One pass of [for face in faces]. *)
Definition draw_face (face : VideoOverlayFace) : list draw :=
  let '(top, right_, bottom, left_) := box face in
  let color :=
    if negb (String.eqb (label face) "Unknown") then (0, 255, 0)%Z
    else (0, 0, 255)%Z in
  let text :=
    (label face ++ " (" ++ PyNum.format_0f (confidence face * 100) ++ "%)")%string in
  [ rectangle (left_, top) (right_, bottom) color 2;
    rectangle (left_, bottom - 20)%Z (right_, bottom) color FILLED;
    putText text (left_ + 2, bottom - 5)%Z 0.5 (255, 255, 255)%Z 1 ].

Definition show_frame (window_title : string)
    (faces : list VideoOverlayFace) (fps : option Q) : list draw :=
  flat_map draw_face faces
  ++ match fps with
     | Some f =>
         [putText ("FPS: " ++ PyNum.format_1f f)%string (10, 20)%Z 0.6
            (0, 255, 255)%Z 2]
     | None => []
     end
  ++ [imshow window_title].

End video_view_draw.

(** ** [app/models/face_detector.py]

    [cv2.cvtColor], [cv2.resize] and [face_recognition.face_locations] are
    the collaborators; each call returns or raises. *)

Module face_detector.
Section Detector.
Variable Frame : Type.
Variable cvtColor : Frame -> outcome Frame.
Variable resize : Frame -> Q -> Q -> outcome Frame.
Variable face_locations : Frame -> string -> outcome (list (Z * Z * Z * Z)).

Record SimpleFaceDetector : Type := mkSimpleFaceDetector {
  scale_factor : Q;
  model : string
}.

(** One pass of the rescaling loop. *)
Definition rescale (factor : Q) (b : Z * Z * Z * Z) : Z * Z * Z * Z :=
  let '(top, right_, bottom, left_) := b in
  (PyNum.int (inject_Z top * factor), PyNum.int (inject_Z right_ * factor),
   PyNum.int (inject_Z bottom * factor), PyNum.int (inject_Z left_ * factor)).

Definition detect_faces (self : SimpleFaceDetector) (frame_bgr : Frame)
    : outcome (list (Z * Z * Z * Z)) :=
  rgb_small <- cvtColor frame_bgr ;;
  rgb_small <- (if negb (Qeq_bool (scale_factor self) 1)
                then resize rgb_small (scale_factor self) (scale_factor self)
                else Ok rgb_small) ;;
  boxes_small <- face_locations rgb_small (model self) ;;
  factor <- (if negb (Qeq_bool (scale_factor self) 0)
             then Py.truediv 1 (scale_factor self)
             else Ok 1) ;;
  Ok (map (rescale factor) boxes_small).

End Detector.
End face_detector.

(** ** [app/utils/config.py] *)

Module config.

Record VideoConfig : Type := mkVideoConfig {
  camera_index : Z;
  width : Z;
  height : Z;
  window_title : string;
  target_fps : Z
}.

Record FaceDetectionConfig : Type := mkFaceDetectionConfig {
  model_dir : string;
  known_faces_dir : string;
  detection_scale_factor : Q;
  recognition_tolerance : Q;
  use_insightface : bool;
  insightface_model_pack : string;
  insightface_ctx_id : Z;
  insightface_det_size : Z * Z
}.

Record AppConfig : Type := mkAppConfig {
  video : VideoConfig;
  face : FaceDetectionConfig
}.

(** [VideoConfig()] with its defaults. *)
Definition default_video : VideoConfig :=
  {| camera_index := 0; width := 640; height := 480;
     window_title := "Face Recognition App"; target_fps := 25 |}.

Definition CPU_CONFIG : AppConfig :=
  {| video := default_video;
     face := {| model_dir := "data/models";
                known_faces_dir := "data/known_faces";
                detection_scale_factor := 0.25;
                recognition_tolerance := 0.8;
                use_insightface := true;
                insightface_model_pack := "buffalo_s";
                insightface_ctx_id := (-1)%Z;
                insightface_det_size := (480, 480)%Z |} |}.

Definition GPU_CONFIG : AppConfig :=
  {| video := default_video;
     face := {| model_dir := "data/models";
                known_faces_dir := "data/known_faces";
                detection_scale_factor := 0.25;
                recognition_tolerance := 0.8;
                use_insightface := true;
                insightface_model_pack := "buffalo_l";
                insightface_ctx_id := 0%Z;
                insightface_det_size := (640, 640)%Z |} |}.

Definition CONFIG : AppConfig := CPU_CONFIG.

End config.

(** ** [app/models/camera_model.py]: the constructor of [OpenCVCamera]

    The calls it makes on [cv2], in order. *)

Module camera_model.

Inductive capture_call : Type :=
| VideoCapture (index : Z)
| set_ (propId : Z) (value : Z).

Definition CAP_PROP_FRAME_WIDTH : Z := 3%Z.
Definition CAP_PROP_FRAME_HEIGHT : Z := 4%Z.

Definition __init__ (index : Z) (width height : option Z) : list capture_call :=
  [VideoCapture index]
  ++ match width with
     | Some w => [set_ CAP_PROP_FRAME_WIDTH w]
     | None => []
     end
  ++ match height with
     | Some h => [set_ CAP_PROP_FRAME_HEIGHT h]
     | None => []
     end.

End camera_model.

(** ** [app/main.py]: [_ensure_running_in_venv] and the whole of [run]

    [basename] is [os.path.basename]; [sys_t] holds [sys.prefix] and
    [sys.base_prefix] (absent on an interpreter without that attribute);
    [fs] tells what the file system holds at a path.  [CONFIG] is the
    constant of [config.py], taken as an argument.  The logger, the
    constructors of the camera controller and of the views and the
    preparation of [FaceAnalysis] are taken to return. *)

Module entry.
Section Entry.
Context {B : Backend}.
Variable basename : string -> string.

Record sys_t : Type := mkSys {
  prefix : string;
  base_prefix : option string
}.

Definition _ensure_running_in_venv (sys : sys_t) : outcome unit :=
  let base :=
    match base_prefix sys with
    | Some b => b
    | None => prefix sys
    end in
  let in_venv := negb (String.eqb (prefix sys) base) in
  let venv_name := basename (prefix sys) in
  if negb in_venv || negb (String.eqb venv_name ".venv")
  then Raise RuntimeError
  else Ok tt.

Inductive event : Type :=
| LoggerAdd (sink : string)
| Log (lv : main.level) (msg : string)
| Capture (call : camera_model.capture_call)
| Driver (ev : main.event).

Definition run (sys : sys_t) (CONFIG : config.AppConfig)
    (fs : string -> pathlib.Path (option Image))
    (perf_counter : nat -> Q) (script : list main.iteration)
    : list event * main.status :=
  let started :=
    [LoggerAdd "face_recognition_app.log";
     Log main.INFO "Starting Face Recognition App"] in
  match _ensure_running_in_venv sys with
  | Raise e => (started, main.Propagated e)
  | Ok _ =>
      let camera :=
        map Capture
          (camera_model.__init__
             (config.camera_index (config.video CONFIG))
             (Some (config.width (config.video CONFIG)))
             (Some (config.height (config.video CONFIG)))) in
      if config.use_insightface (config.face CONFIG) then
        let chosen :=
          [Log main.INFO
             "Using InsightFace backend: model_pack='{}', ctx_id={}, det_size={}"] in
        match insightface_service.__post_init__
                (fs (config.known_faces_dir (config.face CONFIG)))
                (config.recognition_tolerance (config.face CONFIG)) with
        | Raise e => (started ++ camera ++ chosen, main.Propagated e)
        | Ok service =>
            let '(tr, st) := main.run service perf_counter script in
            (started ++ camera ++ chosen ++ map Driver tr, st)
        end
      else (started ++ camera, main.Propagated RuntimeError)
  end.

Definition is_capture_open (ev : event) : bool :=
  match ev with Capture (camera_model.VideoCapture _) => true | _ => false end.

Definition is_camera_release (ev : event) : bool :=
  match ev with Driver main.CameraShutdown => true | _ => false end.

Definition is_window_close (ev : event) : bool :=
  match ev with Driver main.ViewClose => true | _ => false end.

Definition count (p : event -> bool) (tr : list event) : nat :=
  List.length (filter p tr).

End Entry.
End entry.

(** ** [app/models/face_recognizer.py]: [SimpleFaceRecognizer._load_known_faces]

    A matched file is what [face_recognition.load_image_file] gives for it,
    an image or an exception; [face_encodings_in] is
    [face_recognition.face_encodings] called on an image alone.  The
    directory, a field of the dataclass, is an argument here. *)

Fixpoint foldM {A S : Type} (f : S -> A -> outcome S) (l : list A) (s : S)
    : outcome S :=
  match l with
  | [] => Ok s
  | x :: l' =>
      s' <- f s x ;;
      foldM f l' s'
  end.

Module simple_face_recognizer_load.
Import simple_face_recognizer.
Section Loader.
Context {B : Backend}.
Variable face_encodings_in : Image -> list Embedding.

(** The two [append] calls at the end of the inner loop body. *)
Definition append_known (self : SimpleFaceRecognizer)
    (enc : Embedding) (n : string) : SimpleFaceRecognizer :=
  {| tolerance := tolerance self;
     _encodings := _encodings self ++ [enc];
     _names := _names self ++ [n] |}.

(** One pass of [for image_path in person_dir.glob("*.jpg")]. *)
Definition load_image (n : string) (self : SimpleFaceRecognizer)
    (file : outcome Image) : outcome SimpleFaceRecognizer :=
  image <- file ;;
  match face_encodings_in image with
  | [] => Ok self
  | enc :: _ => Ok (append_known self enc n)
  end.

(** One pass of [for person_dir in self.known_faces_dir.iterdir()]. *)
Definition load_person (self : SimpleFaceRecognizer)
    (person_dir : pathlib.Entry (outcome Image)) : outcome SimpleFaceRecognizer :=
  if negb (pathlib.is_dir person_dir) then Ok self
  else foldM (load_image (pathlib.name person_dir))
             (pathlib.glob_jpg person_dir) self.

Definition _load_known_faces (known_faces_dir : pathlib.Path (outcome Image))
    (self : SimpleFaceRecognizer) : outcome SimpleFaceRecognizer :=
  if negb (pathlib.exists_ known_faces_dir) then Ok self
  else
    entries <- pathlib.iterdir known_faces_dir ;;
    foldM load_person entries self.

(** The dataclass constructor followed by [__post_init__]. *)
Definition __post_init__ (known_faces_dir : pathlib.Path (outcome Image))
    (tol : Q) : outcome SimpleFaceRecognizer :=
  _load_known_faces known_faces_dir
    {| tolerance := tol; _encodings := []; _names := [] |}.

End Loader.
End simple_face_recognizer_load.

(** ** More vocabulary: what a gallery directory should load as *)

(** The embedding a matched file contributes, if any. *)
Definition usable {B : Backend} (image : option Image) : option Embedding :=
  match image with
  | Some img => insightface_service._compute_embedding_for_image img
  | None => None
  end.

(** The labelled embeddings of one directory entry: none for a plain file,
    one per usable image of a sub-directory, under its name. *)
Definition entries_of {B : Backend}
    (person_dir : pathlib.Entry (option Image)) : list (string * Embedding) :=
  if pathlib.is_dir person_dir then
    flat_map (fun image =>
                match usable image with
                | Some e => [(pathlib.name person_dir, e)]
                | None => []
                end)
             (pathlib.glob_jpg person_dir)
  else [].

Definition gallery_of {B : Backend}
    (entries : list (pathlib.Entry (option Image))) : list (string * Embedding) :=
  flat_map entries_of entries.

(** [loaded] holds what [self] held, followed by [items], and is otherwise
    unchanged. *)
Definition extends {B : Backend}
    (self loaded : insightface_service.InsightFaceService)
    (items : list (string * Embedding)) : Prop :=
  insightface_service._names loaded
  = insightface_service._names self ++ map fst items
  /\ insightface_service._encodings loaded
     = insightface_service._encodings self ++ map snd items
  /\ insightface_service.tolerance loaded = insightface_service.tolerance self
  /\ insightface_service.known_faces_dir loaded
     = insightface_service.known_faces_dir self.

(** The service that holds the gallery and the threshold of a legacy
    recognizer. *)
Definition service_like {B : Backend} (dir : pathlib.Path (option Image))
    (self : simple_face_recognizer.SimpleFaceRecognizer)
    : insightface_service.InsightFaceService :=
  {| insightface_service.known_faces_dir := dir;
     insightface_service.tolerance := simple_face_recognizer.tolerance self;
     insightface_service._encodings := simple_face_recognizer._encodings self;
     insightface_service._names := simple_face_recognizer._names self |}.

(** An overlay box is the right way up: left of its right edge, above its
    bottom edge. *)
Definition upright (b : Z * Z * Z * Z) : Prop :=
  let '(top, right_, bottom, left_) := b in
  (left_ <= right_)%Z /\ (top <= bottom)%Z.

(** Events of a trace that are a camera read. *)
Definition is_get_frame {B : Backend} (ev : main.event) : bool :=
  match ev with main.GetFrame => true | _ => false end.

(** A small box multiplied back by a whole factor. *)
Definition times (k : positive) (b : Z * Z * Z * Z) : Z * Z * Z * Z :=
  let '(top, right_, bottom, left_) := b in
  (top * Zpos k, right_ * Zpos k, bottom * Zpos k, left_ * Zpos k)%Z.

(** ** [app/main.py]: the [except] and the [finally] of [run], calls fallible

    [main.run] takes the calls of the two handlers to return.  Here each of
    them returns or raises, as [handlers] tells.  The semantics is
    Python's: the [except] clause runs for a [KeyboardInterrupt] only;
    [finally] runs on every way out of the loop; an exception raised in
    [finally] ends it at once, the calls after it not being made, and
    replaces the exception in flight.  A call is recorded in the trace
    when it is made, whether it returns or raises; an interrupt is taken
    to arrive inside a call. *)

Module main_finally.
Import main.

Section Finally.
Context {B : Backend}.

Record handlers : Type := mkHandlers {
  log_interrupted : outcome unit;
  log_shutting_down : outcome unit;
  view_close : outcome unit;
  camera_shutdown : outcome unit
}.

(** The three calls of [finally], and the exception it raises, if any. *)
Definition finally_clause (h : handlers) : list event * option exn :=
  match log_shutting_down h with
  | Raise e => ([Log INFO "Shutting down"], Some e)
  | Ok _ =>
      match view_close h with
      | Raise e => ([Log INFO "Shutting down"; ViewClose], Some e)
      | Ok _ =>
          match camera_shutdown h with
          | Raise e =>
              ([Log INFO "Shutting down"; ViewClose; CameraShutdown], Some e)
          | Ok _ =>
              ([Log INFO "Shutting down"; ViewClose; CameraShutdown], None)
          end
      end
  end.

(** The [except KeyboardInterrupt] clause for an exception [e] of the
    loop: the call it makes, and the exception still in flight after it. *)
Definition except_clause (e : exn) (h : handlers) : list event * option exn :=
  match e with
  | KeyboardInterrupt =>
      ([Log INFO "Interrupted by user"],
       match log_interrupted h with
       | Ok _ => None
       | Raise e' => Some e'
       end)
  | _ => ([], Some e)
  end.

(** What follows the loop once it is left by [break] or by an exception. *)
Definition leave (exit : control) (h : handlers) : list event * status :=
  let '(handled, pending) :=
    match exit with
    | Raised e => except_clause e h
    | _ => ([], None)
    end in
  let '(cleanup, failed) := finally_clause h in
  (handled ++ cleanup,
   match failed, pending with
   | Some e, _ => Propagated e
   | None, Some e => Propagated e
   | None, None => Returned
   end).

Definition run (service : insightface_service.InsightFaceService)
    (perf_counter : nat -> Q) (script : list iteration) (h : handlers)
    : list event * status :=
  let '(tr, st) := loop service perf_counter script helpers.measure_fps in
  match st with
  | None | Some Continue => (tr, StillLooping)
  | Some exit =>
      let '(tail, ended) := leave exit h in
      (tr ++ tail, ended)
  end.

(** Handlers whose four calls all return. *)
Definition returning : handlers :=
  {| log_interrupted := Ok tt; log_shutting_down := Ok tt;
     view_close := Ok tt; camera_shutdown := Ok tt |}.

End Finally.
End main_finally.

(** ** [app/main.py]: the whole of [run], the calls of the start-up fallible

    As [entry.run], with each call of the start-up returning or raising as
    [startup] tells: [logger.add], the two [logger.info], the three calls
    on [cv2] of the constructor of [OpenCVCamera], and [FaceAnalysis(...)]
    and [prepare(...)] at the head of [InsightFaceService.__post_init__].
    The dataclass constructors of the controllers and of the views only
    store their fields, and [measure_fps()] only creates the generator.
    A call is recorded when it is made, whether it returns or raises.  The
    loop is followed by [main_finally.leave]. *)

Module entry_fallible.

Section Entry.
Context {B : Backend}.
Variable basename : string -> string.

Record startup : Type := mkStartup {
  logger_add : outcome unit;
  log_starting : outcome unit;
  video_capture : outcome unit;
  set_width : outcome unit;
  set_height : outcome unit;
  log_backend : outcome unit;
  face_analysis : outcome unit;
  prepare : outcome unit
}.

(** One call of the start-up: recorded, then the rest if it returned. *)
Definition step (done call : list entry.event) (o : outcome unit)
    (rest : list entry.event -> list entry.event * main.status)
    : list entry.event * main.status :=
  match o with
  | Raise e => (done ++ call, main.Propagated e)
  | Ok _ => rest (done ++ call)
  end.

Definition run (sys : entry.sys_t) (CONFIG : config.AppConfig)
    (fs : string -> pathlib.Path (option Image)) (s : startup)
    (perf_counter : nat -> Q) (script : list main.iteration)
    (h : main_finally.handlers) : list entry.event * main.status :=
  step [] [entry.LoggerAdd "face_recognition_app.log"] (logger_add s)
    (fun done =>
  step done [entry.Log main.INFO "Starting Face Recognition App"]
    (log_starting s) (fun done =>
  step done [] (entry._ensure_running_in_venv basename sys) (fun done =>
  step done
    [entry.Capture
       (camera_model.VideoCapture (config.camera_index (config.video CONFIG)))]
    (video_capture s) (fun done =>
  step done
    [entry.Capture
       (camera_model.set_ camera_model.CAP_PROP_FRAME_WIDTH
          (config.width (config.video CONFIG)))]
    (set_width s) (fun done =>
  step done
    [entry.Capture
       (camera_model.set_ camera_model.CAP_PROP_FRAME_HEIGHT
          (config.height (config.video CONFIG)))]
    (set_height s) (fun done =>
  if config.use_insightface (config.face CONFIG) then
    step done
      [entry.Log main.INFO
         "Using InsightFace backend: model_pack='{}', ctx_id={}, det_size={}"]
      (log_backend s) (fun done =>
    step done [] (face_analysis s) (fun done =>
    step done [] (prepare s) (fun done =>
    match insightface_service.__post_init__
            (fs (config.known_faces_dir (config.face CONFIG)))
            (config.recognition_tolerance (config.face CONFIG)) with
    | Raise e => (done, main.Propagated e)
    | Ok service =>
        let '(tr, st) := main_finally.run service perf_counter script h in
        (done ++ map entry.Driver tr, st)
    end)))
  else (done, main.Propagated RuntimeError))))))).

(** Every call of the start-up returned, up to the gallery load. *)
Definition started (sys : entry.sys_t) (CONFIG : config.AppConfig)
    (s : startup) : Prop :=
  logger_add s = Ok tt /\ log_starting s = Ok tt
  /\ entry._ensure_running_in_venv basename sys = Ok tt
  /\ video_capture s = Ok tt /\ set_width s = Ok tt /\ set_height s = Ok tt
  /\ config.use_insightface (config.face CONFIG) = true
  /\ log_backend s = Ok tt /\ face_analysis s = Ok tt /\ prepare s = Ok tt.

(** A start-up all of whose calls return. *)
Definition returning : startup :=
  {| logger_add := Ok tt; log_starting := Ok tt; video_capture := Ok tt;
     set_width := Ok tt; set_height := Ok tt; log_backend := Ok tt;
     face_analysis := Ok tt; prepare := Ok tt |}.

End Entry.
End entry_fallible.

(** A coordinate that [astype(int)] truncates without overflow, whatever
    the width of numpy's [int] on the platform (32 bits at least). *)
Definition fits_int (x : Q) : Prop :=
  - inject_Z (2 ^ 31) < x /\ x < inject_Z (2 ^ 31).

(** A power of two whose reciprocal, and whose products with the
    coordinates of a box exact in a double, are exact in a double. *)
Definition power_of_two (k : positive) : Prop :=
  exists n : nat, (n <= 970)%nat /\ Zpos k = (2 ^ Z.of_nat n)%Z.

(** A box whose coordinates a double holds exactly. *)
Definition exact_in_double (b : Z * Z * Z * Z) : Prop :=
  let '(top, right_, bottom, left_) := b in
  (Z.abs top <= 2 ^ 53 /\ Z.abs right_ <= 2 ^ 53
   /\ Z.abs bottom <= 2 ^ 53 /\ Z.abs left_ <= 2 ^ 53)%Z.

(** ** Further concrete inputs *)

Module Fixture.
Import insightface_service.

#[local] Existing Instance line_backend.

(** A service that already holds one entry, before the sample directory is
    loaded. *)
Definition zoe : InsightFaceService :=
  {| known_faces_dir := Sample.known_faces;
     tolerance := 0.8;
     _encodings := map snd [("Zoe"%string, 9)];
     _names := map fst [("Zoe"%string, 9)] |}.

(** The gallery of Alice under a negative threshold. *)
Definition negative_tolerance : InsightFaceService :=
  Sample.service (-1) [("Alice"%string, 1)].

(** A service whose gallery is empty but whose threshold is zero. *)
Definition nobody : InsightFaceService := Sample.service 0 [].

(** The legacy recognizer over the gallery of Alice and Bob, a stand-in
    for [face_recognition.face_encodings] that reads one encoding per
    face location off the top coordinate, and the one that finds the
    embeddings of the faces of an image. *)
Definition legacy : simple_face_recognizer.SimpleFaceRecognizer :=
  simple_face_recognizer.mkSimpleFaceRecognizer 0.8
    (map snd [("Alice"%string, 1); ("Bob"%string, 2)])
    (map fst [("Alice"%string, 1); ("Bob"%string, 2)]).

Definition encodings_at (frame : list (Face Q))
    (locations : list (Z * Z * Z * Z)) : list Q :=
  map (fun '(top, _, _, _) => inject_Z top / 10) locations.

Definition encodings_in (image : list (Face Q)) : list Q :=
  map (fun face => embedding face) image.

Definition legacy_faces : pathlib.Path (outcome (list (Face Q))) :=
  pathlib.Directory
    [ pathlib.mkEntry "Alice" true
        [Ok [Sample.one_face 1; Sample.one_face 7]; Ok []];
      pathlib.mkEntry "notes.txt" false [Raise ValueError];
      pathlib.mkEntry "Bob" true [Ok [Sample.one_face 2]] ].

Definition broken_faces : pathlib.Path (outcome (list (Face Q))) :=
  pathlib.Directory
    [ pathlib.mkEntry "Alice" true [Ok [Sample.one_face 1]];
      pathlib.mkEntry "Bob" true [Raise ValueError; Ok [Sample.one_face 2]] ].

(** The part of a POSIX path after its last slash, an interpreter inside
    and one outside a local [.venv], and three file systems: one holding
    the sample directory at the configured place, one holding nothing and
    one holding a plain file there. *)
Fixpoint basename_from (acc path : string) : string :=
  match path with
  | EmptyString => acc
  | String c rest =>
      if Ascii.eqb c (Ascii.ascii_of_nat 47) then basename_from "" rest
      else basename_from (acc ++ String c "") rest
  end.

Definition basename (path : string) : string := basename_from "" path.

Definition in_venv : entry.sys_t :=
  {| entry.prefix := "/home/user/app/.venv";
     entry.base_prefix := Some "/usr"%string |}.

Definition system_python : entry.sys_t :=
  {| entry.prefix := "/usr"; entry.base_prefix := Some "/usr"%string |}.

Definition disk (path : string) : pathlib.Path (option (list (Face Q))) :=
  if String.eqb path "data/known_faces" then Sample.known_faces
  else pathlib.Missing.

Definition empty_disk (path : string) : pathlib.Path (option (list (Face Q))) :=
  pathlib.Missing.

Definition file_disk (path : string) : pathlib.Path (option (list (Face Q))) :=
  pathlib.NotADirectory.

(** Collaborators of the legacy detector on frames that are lists of
    small boxes: the colour conversion and the resize keep the frame, and
    the locator reports the boxes the frame lists. *)
Definition keep_frame (frame : list (Z * Z * Z * Z))
    : outcome (list (Z * Z * Z * Z)) := Ok frame.

Definition resize_frame (frame : list (Z * Z * Z * Z)) (fx fy : Q)
    : outcome (list (Z * Z * Z * Z)) := Ok frame.

Definition locate (frame : list (Z * Z * Z * Z)) (model : string)
    : outcome (list (Z * Z * Z * Z)) := Ok frame.

Definition quarter_scale : face_detector.SimpleFaceDetector :=
  {| face_detector.scale_factor := 0.25; face_detector.model := "hog" |}.


Definition log_interrupted_twice : main_finally.handlers :=
  {| main_finally.log_interrupted := Ok tt;
     main_finally.log_shutting_down := Raise KeyboardInterrupt;
     main_finally.view_close := Ok tt;
     main_finally.camera_shutdown := Ok tt |}.

End Fixture.

(** * Properties *)

(** ** Comparisons and the clamp *)

Lemma ltb_true (x y : Q) : Py.ltb x y = true <-> x < y.
Proof.
  unfold Py.ltb. rewrite negb_true_iff.
  split; intro H.
  - apply Qnot_le_lt. intro Hle. apply Qle_bool_iff in Hle. congruence.
  - destruct (Qle_bool y x) eqn:E; [|reflexivity].
    apply Qle_bool_iff in E. lra.
Qed.

Lemma ltb_false (x y : Q) : Py.ltb x y = false <-> y <= x.
Proof.
  unfold Py.ltb. rewrite negb_false_iff. apply Qle_bool_iff.
Qed.

Lemma leb_true (x y : Q) : Py.leb x y = true <-> x <= y.
Proof. apply Qle_bool_iff. Qed.

Lemma leb_false (x y : Q) : Py.leb x y = false <-> y < x.
Proof.
  unfold Py.leb. split; intro H.
  - apply Qnot_le_lt. intro Hle. apply Qle_bool_iff in Hle. congruence.
  - destruct (Qle_bool x y) eqn:E; [|reflexivity].
    apply Qle_bool_iff in E. lra.
Qed.

Ltac by_cases_on_ltb :=
  repeat match goal with
  | |- context [Py.ltb ?a ?b] =>
      let E := fresh "E" in
      destruct (Py.ltb a b) eqn:E;
      [apply ltb_true in E | apply ltb_false in E]
  end.

(** The composition of [max] and [min] in the sources is the clamp. *)
Lemma max_min_is_clamp (x : Q) : Py.max 0 (Py.min 1 x) == clamp x 0 1.
Proof.
  unfold Py.max, Py.min, clamp.
  destruct (Py.ltb x 1) eqn:E1; [apply ltb_true in E1 | apply ltb_false in E1];
  by_cases_on_ltb; lra.
Qed.

Lemma max_min_in_unit_interval (x : Q) :
  0 <= Py.max 0 (Py.min 1 x) /\ Py.max 0 (Py.min 1 x) <= 1.
Proof.
  unfold Py.max, Py.min.
  destruct (Py.ltb x 1) eqn:E1; [apply ltb_true in E1 | apply ltb_false in E1];
  by_cases_on_ltb; lra.
Qed.

Lemma truediv_nonzero (a b : Q) : ~ b == 0 -> Py.truediv a b = Ok (a / b).
Proof.
  intro Hb. unfold Py.truediv.
  destruct (Qeq_bool b 0) eqn:E; [|reflexivity].
  apply Qeq_bool_iff in E. contradiction.
Qed.

Lemma truediv_zero (a b : Q) : b == 0 -> Py.truediv a b = Raise ZeroDivisionError.
Proof.
  intro Hb. unfold Py.truediv.
  apply Qeq_bool_iff in Hb. now rewrite Hb.
Qed.

Lemma truediv_cases (a b : Q) :
  Py.truediv a b = Ok (a / b) \/ Py.truediv a b = Raise ZeroDivisionError.
Proof. unfold Py.truediv. destruct (Qeq_bool b 0); auto. Qed.

(** ** [np.argmin] returns the first index of the least entry *)

Section Argmin.

(** The invariant of the scan over [pre ++ l]: [best] sits at [best_i]
    among the entries already seen, none of them is smaller and none
    before [best_i] is as small. *)
Lemma argmin_from_first_minimum (l pre : list Q) (best_i : nat) (best : Q) :
  nth_error pre best_i = Some best ->
  (forall j x, nth_error pre j = Some x -> best <= x) ->
  (forall j x, (j < best_i)%nat -> nth_error pre j = Some x -> best < x) ->
  exists d,
    first_minimum (pre ++ l)
      (Np.argmin_from best_i best (List.length pre) l) d.
Proof.
  revert pre best_i best.
  induction l as [|x l IH]; intros pre best_i best Hat Hmin Hfirst.
  - simpl. rewrite app_nil_r. exists best. repeat split; assumption.
  - simpl.
    assert (Hlen : (best_i < List.length pre)%nat)
      by (apply nth_error_Some; congruence).
    replace (pre ++ x :: l) with ((pre ++ [x]) ++ l)
      by (rewrite <- app_assoc; reflexivity).
    replace (S (List.length pre)) with (List.length (pre ++ [x]))
      by (rewrite length_app; simpl; lia).
    destruct (Py.ltb x best) eqn:E.
    + apply ltb_true in E.
      replace (List.length pre) with (List.length pre + 0)%nat at 1 by lia.
      replace (List.length pre + 0)%nat with (List.length pre) by lia.
      apply IH.
      * rewrite nth_error_app2 by lia.
        rewrite Nat.sub_diag. reflexivity.
      * intros j y Hj.
        destruct (Nat.lt_ge_cases j (List.length pre)) as [Hlt|Hge].
        -- rewrite nth_error_app1 in Hj by assumption.
           specialize (Hmin j y Hj). lra.
        -- rewrite nth_error_app2 in Hj by assumption.
           destruct (j - List.length pre)%nat as [|k]; simpl in Hj.
           ++ injection Hj as <-. lra.
           ++ destruct k; discriminate.
      * intros j y Hj Hy.
        rewrite nth_error_app1 in Hy by assumption.
        specialize (Hmin j y Hy). lra.
    + apply ltb_false in E.
      apply IH.
      * rewrite nth_error_app1 by assumption. assumption.
      * intros j y Hj.
        destruct (Nat.lt_ge_cases j (List.length pre)) as [Hlt|Hge].
        -- rewrite nth_error_app1 in Hj by assumption. eauto.
        -- rewrite nth_error_app2 in Hj by assumption.
           destruct (j - List.length pre)%nat as [|k]; simpl in Hj.
           ++ injection Hj as <-. assumption.
           ++ destruct k; discriminate.
      * intros j y Hj Hy.
        rewrite nth_error_app1 in Hy by lia. eauto.
Qed.

Lemma argmin_first_minimum (a : list Q) :
  a <> [] -> exists i d, Np.argmin a = Ok i /\ first_minimum a i d.
Proof.
  destruct a as [|x l]; [congruence|]. intros _.
  destruct (@argmin_from_first_minimum l [x] 0 x) as [d Hd].
  - reflexivity.
  - intros [|[|j]] y Hy; simpl in Hy; try discriminate.
    injection Hy as <-. lra.
  - intros j y Hj. lia.
  - exists (Np.argmin_from 0 x 1 l), d. split; [reflexivity | exact Hd].
Qed.

(** The first minimum is unique, so it is the one [np.argmin] returns. *)
Lemma first_minimum_unique (a : list Q) (i j : nat) (d e : Q) :
  first_minimum a i d -> first_minimum a j e -> i = j /\ d = e.
Proof.
  intros (Hi & Hmin_i & Hfirst_i) (Hj & Hmin_j & Hfirst_j).
  destruct (Nat.lt_trichotomy i j) as [Hlt | [Heq | Hgt]].
  - specialize (Hfirst_j i d Hlt Hi). specialize (Hmin_i j e Hj). lra.
  - subst j. split; [reflexivity | congruence].
  - specialize (Hfirst_i j e Hgt Hj). specialize (Hmin_j i d Hi). lra.
Qed.

Lemma argmin_is_first_minimum (a : list Q) (i : nat) (d : Q) :
  first_minimum a i d -> Np.argmin a = Ok i.
Proof.
  intros H.
  assert (Hne : a <> []).
  { destruct H as (Hi & _). intros ->. destruct i; discriminate. }
  destruct (argmin_first_minimum Hne) as (i' & d' & Harg & Hfm).
  destruct (first_minimum_unique Hfm H) as [-> _]. exact Harg.
Qed.

Lemma first_minimum_in_range (a : list Q) (i : nat) (d : Q) :
  first_minimum a i d -> (i < List.length a)%nat.
Proof.
  intros (Hi & _). apply nth_error_Some. congruence.
Qed.

End Argmin.

(** ** The matcher *)

Section MatcherFacts.
Context {B : Backend}.
Import face_recognizer insightface_service.

Lemma distances_length (self : InsightFaceService) (e : Embedding) :
  List.length (distances_to self e) = List.length (_encodings self).
Proof. unfold distances_to. apply length_map. Qed.

Lemma distances_nth (self : InsightFaceService) (e : Embedding) (i : nat) :
  nth_error (distances_to self e) i
  = option_map (fun row => linalg_norm (sub_row row e))
               (nth_error (_encodings self) i).
Proof. unfold distances_to. apply nth_error_map. Qed.

Lemma getitem_nth (A : Type) (l : list A) (i : nat) (x : A) :
  nth_error l i = Some x -> Py.getitem l i = Ok x.
Proof. unfold Py.getitem. now intros ->. Qed.

Lemma getitem_in_range (A : Type) (l : list A) (i : nat) :
  (i < List.length l)%nat -> exists x, nth_error l i = Some x.
Proof.
  intro H. destruct (nth_error l i) as [x|] eqn:E; [now exists x|].
  apply nth_error_None in E. lia.
Qed.

(** What [_match_embedding] computes once the first least distance [d] is
    known to sit at [i] and the label list reaches that far. *)
Lemma match_at_first_minimum (self : InsightFaceService) (e : Embedding)
    (i : nat) (d : Q) (label : string) :
  first_minimum (distances_to self e) i d ->
  nth_error (_names self) i = Some label ->
  _match_embedding self e
  = if Py.leb d (tolerance self) then
      ratio <- Py.truediv d (tolerance self) ;;
      Ok {| name := label; confidence := Py.max 0 (Py.min 1 (1 - ratio)) |}
    else Ok unknown.
Proof.
  intros Hfm Hlabel.
  pose proof (argmin_is_first_minimum Hfm) as Harg.
  pose proof (first_minimum_in_range Hfm) as Hi.
  rewrite distances_length in Hi.
  destruct Hfm as (Hat & _).
  unfold _match_embedding.
  destruct (_encodings self) as [|r0 rs] eqn:Eenc; [simpl in Hi; lia|].
  rewrite Harg. cbn [bind].
  rewrite (getitem_nth _ _ Hat). cbn [bind].
  destruct (Py.leb d (tolerance self)); [|reflexivity].
  destruct (Py.truediv d (tolerance self)) as [ratio|ex]; cbn [bind];
    [|reflexivity].
  rewrite (getitem_nth _ _ Hlabel). reflexivity.
Qed.

(** On a non-empty gallery whose two lists are paired there is such an
    index, and it names a stored row and its label. *)
Lemma paired_first_minimum (self : InsightFaceService) (e : Embedding) :
  paired self -> _encodings self <> [] ->
  exists i d row label,
    first_minimum (distances_to self e) i d
    /\ nth_error (_encodings self) i = Some row
    /\ d = linalg_norm (sub_row row e)
    /\ nth_error (_names self) i = Some label.
Proof.
  intros Hpaired Hne.
  assert (Hdne : distances_to self e <> []).
  { intro H0. apply Hne. apply length_zero_iff_nil.
    rewrite <- (distances_length self e), H0. reflexivity. }
  destruct (argmin_first_minimum Hdne) as (i & d & Harg & Hfm).
  pose proof (first_minimum_in_range Hfm) as Hi.
  rewrite distances_length in Hi.
  destruct (getitem_in_range (_encodings self) Hi) as [row Hrow].
  assert (Hin : (i < List.length (_names self))%nat)
    by (unfold paired in Hpaired; lia).
  destruct (getitem_in_range (_names self) Hin) as [label Hlabel].
  exists i, d, row, label.
  repeat split; try assumption; try apply Hfm.
  destruct Hfm as (Hat & _). rewrite distances_nth, Hrow in Hat.
  simpl in Hat. congruence.
Qed.

(** A single stored row: its distance is the least one, at index 0. *)
Lemma single_row_first_minimum (self : InsightFaceService)
    (row e : Embedding) :
  _encodings self = [row] ->
  first_minimum (distances_to self e) 0 (linalg_norm (sub_row row e)).
Proof.
  intro Henc. unfold distances_to. rewrite Henc. simpl.
  repeat split.
  - intros [|[|j]] x Hx; simpl in Hx; try discriminate.
    injection Hx as <-. lra.
  - intros j x Hj. lia.
Qed.

(** Whatever the gallery and the threshold, a result that is returned has
    its confidence within the unit interval. *)
Lemma match_embedding_confidence_range (self : InsightFaceService)
    (e : Embedding) (r : RecognitionResult) :
  _match_embedding self e = Ok r -> 0 <= confidence r /\ confidence r <= 1.
Proof.
  unfold _match_embedding.
  destruct (_encodings self) as [|r0 rs].
  - intros [= <-]. simpl. lra.
  - destruct (Np.argmin (distances_to self e)) as [i|]; cbn [bind];
      [|discriminate].
    destruct (Py.getitem (distances_to self e) i) as [d|]; cbn [bind];
      [|discriminate].
    destruct (Py.leb d (tolerance self)).
    + destruct (Py.truediv d (tolerance self)) as [ratio|]; cbn [bind];
        [|discriminate].
      destruct (Py.getitem (_names self) i) as [n|]; cbn [bind];
        [|discriminate].
      intros [= <-]. simpl. apply max_min_in_unit_interval.
    + intros [= <-]. simpl. lra.
Qed.

End MatcherFacts.

Section MatcherClaims.
Context {B : Backend}.
Import face_recognizer insightface_service.

(** C1.  On a non-empty gallery (one label per stored embedding) the match
    is decided by the stored row at least distance [d] from the query: when
    [d] is within the threshold, and the threshold is not zero so that the
    quotient [d / threshold] exists, the result carries that row's label
    and the confidence [clamp (1 - d / threshold) 0 1]; when [d] exceeds
    the threshold the result is ["Unknown"] with confidence 0.  With the
    single entry ["Alice"] and threshold 0.8, a query at distance 0.3 gives
    ["Alice"] with confidence 0.625, and a query at distance 0.9 gives
    ["Unknown"] with confidence 0. *)
Theorem match_selects_nearest_entry :
  (forall (self : InsightFaceService) (e : Embedding),
     paired self -> _encodings self <> [] ->
     exists i row label d,
       nth_error (_encodings self) i = Some row
       /\ nth_error (_names self) i = Some label
       /\ d = linalg_norm (sub_row row e)
       /\ (forall row', In row' (_encodings self) ->
             d <= linalg_norm (sub_row row' e))
       /\ (d <= tolerance self -> ~ tolerance self == 0 ->
           exists r, _match_embedding self e = Ok r
                     /\ name r = label
                     /\ confidence r == clamp (1 - d / tolerance self) 0 1)
       /\ (tolerance self < d -> _match_embedding self e = Ok unknown))
  /\ (forall dir (e_alice q : Embedding),
        linalg_norm (sub_row e_alice q) == 0.3 ->
        exists r,
          _match_embedding
            {| known_faces_dir := dir; tolerance := 0.8;
               _encodings := [e_alice]; _names := ["Alice"%string] |} q = Ok r
          /\ name r = "Alice"%string /\ confidence r == 0.625)
  /\ (forall dir (e_alice q : Embedding),
        linalg_norm (sub_row e_alice q) == 0.9 ->
        _match_embedding
          {| known_faces_dir := dir; tolerance := 0.8;
             _encodings := [e_alice]; _names := ["Alice"%string] |} q
        = Ok {| name := "Unknown"; confidence := 0 |}).
Proof.
  split; [|split].
  - intros self e Hpaired Hne.
    destruct (paired_first_minimum e Hpaired Hne)
      as (i & d & row & label & Hfm & Hrow & Hd & Hlabel).
    pose proof (match_at_first_minimum self e Hfm Hlabel) as Hmatch.
    exists i, row, label, d. repeat split; try assumption.
    + intros row' Hin.
      destruct (In_nth_error _ _ Hin) as [j Hj].
      destruct Hfm as (_ & Hmin & _).
      apply (Hmin j). rewrite distances_nth, Hj. reflexivity.
    + intros Hle Hnz.
      apply leb_true in Hle. rewrite Hle in Hmatch.
      rewrite (truediv_nonzero _ Hnz) in Hmatch. cbn [bind] in Hmatch.
      eexists. split; [exact Hmatch|]. split; [reflexivity|].
      simpl. apply max_min_is_clamp.
    + intros Hgt. apply leb_false in Hgt. now rewrite Hgt in Hmatch.
  - intros dir e_alice q Hd.
    set (self := {| known_faces_dir := dir; tolerance := 0.8;
                    _encodings := [e_alice]; _names := ["Alice"%string] |}).
    pose proof (single_row_first_minimum self q eq_refl) as Hfm.
    rewrite (match_at_first_minimum self q (label := "Alice"%string) Hfm eq_refl).
    assert (Hle : Py.leb (linalg_norm (sub_row e_alice q)) (tolerance self) = true)
      by (apply leb_true; simpl; lra).
    rewrite Hle.
    rewrite truediv_nonzero by (simpl; lra). cbn [bind].
    eexists. split; [reflexivity|]. split; [reflexivity|].
    simpl. rewrite max_min_is_clamp.
    assert (Hx : 1 - linalg_norm (sub_row e_alice q) / 0.8 == 0.625)
      by (rewrite Hd; reflexivity).
    revert Hx. generalize (1 - linalg_norm (sub_row e_alice q) / 0.8).
    intros x Hx. unfold clamp; by_cases_on_ltb; lra.
  - intros dir e_alice q Hd.
    set (self := {| known_faces_dir := dir; tolerance := 0.8;
                    _encodings := [e_alice]; _names := ["Alice"%string] |}).
    pose proof (single_row_first_minimum self q eq_refl) as Hfm.
    rewrite (match_at_first_minimum self q (label := "Alice"%string) Hfm eq_refl).
    assert (Hgt : Py.leb (linalg_norm (sub_row e_alice q)) (tolerance self) = false)
      by (apply leb_false; simpl; lra).
    rewrite Hgt. reflexivity.
Qed.

(** C2.  Whatever the threshold and the query, an empty gallery gives
    ["Unknown"] with confidence 0: from [_match_embedding] whatever the
    label list holds, and from the legacy [recognize] once per face
    location. *)
Theorem empty_gallery_matches_unknown :
  (forall dir (t : Q) (names : list string) (e : Embedding),
     _match_embedding
       {| known_faces_dir := dir; tolerance := t;
          _encodings := []; _names := names |} e
     = Ok {| name := "Unknown"; confidence := 0 |})
  /\ (forall face_encodings (t : Q) (names : list string) (frame : Image)
             (face_locations : list (Z * Z * Z * Z)),
        simple_face_recognizer.recognize face_encodings
          {| simple_face_recognizer.tolerance := t;
             simple_face_recognizer._encodings := [];
             simple_face_recognizer._names := names |} frame face_locations
        = Ok (repeat {| name := "Unknown"; confidence := 0 |}
                     (List.length face_locations))).
Proof.
  split.
  - reflexivity.
  - intros face_encodings t names frame face_locations.
    unfold simple_face_recognizer.recognize. simpl. f_equal.
    induction face_locations as [|loc locs IH]; simpl; [reflexivity|].
    now rewrite IH.
Qed.

(** C5.  When [i] is the first index at which the least distance [d] to the
    query is attained, [np.argmin] returns [i]; so among stored entries at
    the same least distance the one stored first is selected, and a match
    within a non-zero threshold carries the label stored at [i].  The
    matcher being a function of the stored lists, the threshold and the
    query, equal inputs in the same stored order give the same result. *)
Theorem match_ties_first_stored
    (self : InsightFaceService) (e : Embedding)
    (i : nat) (d : Q) (label : string) :
  first_minimum (distances_to self e) i d ->
  nth_error (_names self) i = Some label ->
  Np.argmin (distances_to self e) = Ok i
  /\ (d <= tolerance self -> ~ tolerance self == 0 ->
      exists r, _match_embedding self e = Ok r /\ name r = label).
Proof.
  intros Hfm Hlabel. split.
  - exact (argmin_is_first_minimum Hfm).
  - intros Hle Hnz.
    rewrite (match_at_first_minimum self e Hfm Hlabel).
    apply leb_true in Hle. rewrite Hle.
    rewrite (truediv_nonzero _ Hnz). cbn [bind].
    eexists. split; reflexivity.
Qed.


(** With a zero threshold, a stored row at distance zero from the query
    makes the division raise. *)
Lemma match_embedding_zero_threshold (self : InsightFaceService)
    (e : Embedding) (i : nat) (d : Q) (label : string) :
  first_minimum (distances_to self e) i d ->
  nth_error (_names self) i = Some label ->
  tolerance self == 0 -> d <= 0 ->
  _match_embedding self e = Raise ZeroDivisionError.
Proof.
  intros Hfm Hlabel Ht Hd.
  rewrite (match_at_first_minimum self e Hfm Hlabel).
  assert (Hle : Py.leb d (tolerance self) = true)
    by (apply leb_true; lra).
  rewrite Hle, (truediv_zero _ Ht). reflexivity.
Qed.

End MatcherClaims.

(** Witness of C1: the gallery of Alice at distances 0.3 and 0.9, and the
    general statement on a gallery of four. *)
Lemma match_selects_nearest_entry_witness :
  (exists r,
     insightface_service._match_embedding Sample.alice 1.3 = Ok r
     /\ face_recognizer.name r = "Alice"%string
     /\ face_recognizer.confidence r == 0.625)
  /\ insightface_service._match_embedding Sample.alice 1.9
     = Ok {| face_recognizer.name := "Unknown";
             face_recognizer.confidence := 0 |}
  /\ exists i row label d,
       nth_error (insightface_service._encodings Sample.twins) i = Some row
       /\ nth_error (insightface_service._names Sample.twins) i = Some label
       /\ d = Qabs (row - 2)
       /\ (forall row', In row' (insightface_service._encodings Sample.twins) ->
             d <= Qabs (row' - 2))
       /\ (d <= 0.8 -> ~ 0.8 == 0 ->
           exists r,
             insightface_service._match_embedding Sample.twins 2 = Ok r
             /\ face_recognizer.name r = label
             /\ face_recognizer.confidence r == clamp (1 - d / 0.8) 0 1)
       /\ (0.8 < d ->
           insightface_service._match_embedding Sample.twins 2
           = Ok insightface_service.unknown).
Proof.
  destruct (@match_selects_nearest_entry line_backend)
    as (Hgeneral & Hwithin & Hbeyond).
  split; [|split].
  - apply (Hwithin pathlib.Missing 1 1.3). reflexivity.
  - apply (Hbeyond pathlib.Missing 1 1.9). reflexivity.
  - apply (Hgeneral Sample.twins 2); [reflexivity | discriminate].
Defined.

(** Witness of C5: four stored faces, three of them tied at distance 0.5
    from the query; the first of the three is selected. *)
Lemma match_ties_first_stored_witness :
  Np.argmin (insightface_service.distances_to Sample.twins 2) = Ok 1%nat
  /\ exists r, insightface_service._match_embedding Sample.twins 2 = Ok r
               /\ face_recognizer.name r = "Alice"%string.
Proof.
  assert (Hfm : first_minimum
                  (insightface_service.distances_to Sample.twins 2) 1 0.5).
  { repeat split.
    - intros [|[|[|[|j]]]] x Hx;
        try (destruct j; simpl in Hx; discriminate Hx);
        vm_compute in Hx; injection Hx as <-; lra.
    - intros [|j] x Hj Hx; [|lia].
      vm_compute in Hx. injection Hx as <-. lra. }
  destruct (@match_ties_first_stored line_backend Sample.twins 2 1%nat 0.5
              "Alice"%string Hfm eq_refl) as [Harg Hmatch].
  split; [exact Harg|].
  apply Hmatch; simpl; lra.
Defined.

(** C4 at a zero threshold: the query equals the stored embedding, the
    distance 0 passes the test [0 <= 0] and the division raises, in the
    matcher of the service and in the legacy recognizer alike. *)
Theorem match_zero_threshold_raises :
  insightface_service._match_embedding Sample.zero_tolerance 1
  = Raise ZeroDivisionError
  /\ simple_face_recognizer.recognize (B := line_backend)
       Sample.sees_alice Sample.legacy_zero_tolerance [] [(0, 10, 10, 0)%Z]
     = Raise ZeroDivisionError.
Proof. split; reflexivity. Qed.

(** ** Loading the gallery *)

Section GalleryClaims.
Context {B : Backend}.
Import face_recognizer insightface_service.

Lemma load_image_paired (n : string) (self : InsightFaceService)
    (image : option Image) :
  paired self -> paired (load_image n self image).
Proof.
  unfold paired, load_image. intro H.
  destruct image as [img|]; [|assumption].
  destruct (_compute_embedding_for_image img) as [e|]; [|assumption].
  simpl. rewrite !length_app. simpl. lia.
Qed.

Lemma load_images_paired (n : string) (images : list (option Image)) :
  forall self, paired self -> paired (fold_left (load_image n) images self).
Proof.
  induction images as [|image images IH]; intros self H; simpl.
  - assumption.
  - apply IH. now apply load_image_paired.
Qed.

Lemma load_person_paired (self : InsightFaceService)
    (person_dir : pathlib.Entry (option Image)) :
  paired self -> paired (load_person self person_dir).
Proof.
  unfold load_person. intro H.
  destruct (negb (pathlib.is_dir person_dir)); [assumption|].
  now apply load_images_paired.
Qed.

Lemma load_persons_paired (entries : list (pathlib.Entry (option Image))) :
  forall self, paired self -> paired (fold_left load_person entries self).
Proof.
  induction entries as [|entry entries IH]; intros self H; simpl.
  - assumption.
  - apply IH. now apply load_person_paired.
Qed.

Lemma load_known_faces_paired (self loaded : InsightFaceService) :
  paired self -> _load_known_faces self = Ok loaded -> paired loaded.
Proof.
  unfold _load_known_faces. intros H.
  destruct (negb (pathlib.exists_ (known_faces_dir self))).
  - now intros [= <-].
  - destruct (pathlib.iterdir (known_faces_dir self)) as [entries|ex];
      cbn [bind]; [|discriminate].
    intros [= <-]. now apply load_persons_paired.
Qed.

(** C7.  For a gallery directory that does not exist the constructor
    returns, with no exception, a service holding no embedding and no
    label, and every match against it is ["Unknown"] with confidence 0. *)
Theorem missing_directory_loads_empty (t : Q) :
  exists self,
    __post_init__ pathlib.Missing t = Ok self
    /\ _encodings self = []
    /\ _names self = []
    /\ forall e : Embedding,
         _match_embedding self e = Ok {| name := "Unknown"; confidence := 0 |}.
Proof.
  eexists. split; [reflexivity|]. repeat split.
Qed.

(** C10.  A service that the constructor returns holds as many labels as
    embeddings; hence on a non-empty gallery the index [np.argmin] returns
    is within the label list, reading the label there succeeds, and the
    matcher never raises [IndexError]. *)
Theorem loaded_gallery_index_in_range
    (dir : pathlib.Path (option Image)) (t : Q) (self : InsightFaceService) :
  __post_init__ dir t = Ok self ->
  List.length (_encodings self) = List.length (_names self)
  /\ forall e : Embedding,
       _encodings self <> [] ->
       exists i label,
         Np.argmin (distances_to self e) = Ok i
         /\ (i < List.length (_names self))%nat
         /\ Py.getitem (_names self) i = Ok label
         /\ _match_embedding self e <> Raise IndexError.
Proof.
  intro Hinit.
  assert (Hpaired : paired self).
  { unfold __post_init__ in Hinit.
    eapply load_known_faces_paired; [|exact Hinit]. reflexivity. }
  split; [exact Hpaired|].
  intros e Hne.
  destruct (paired_first_minimum e Hpaired Hne)
    as (i & d & row & label & Hfm & _ & _ & Hlabel).
  exists i, label. repeat split.
  - exact (argmin_is_first_minimum Hfm).
  - apply nth_error_Some. congruence.
  - exact (getitem_nth _ _ Hlabel).
  - rewrite (match_at_first_minimum self e Hfm Hlabel).
    destruct (Py.leb d (tolerance self)); [|discriminate].
    destruct (truediv_cases d (tolerance self)) as [-> | ->];
      cbn [bind]; discriminate.
Qed.

End GalleryClaims.

(** Witness of C10: a directory with two persons, an unreadable file, an
    image without a face, an image with two faces and a stray file. *)
Lemma loaded_gallery_index_in_range_witness :
  exists self,
    insightface_service.__post_init__ (B := line_backend)
      Sample.known_faces 0.8 = Ok self
    /\ insightface_service._encodings self = [1; 4; 2]
    /\ insightface_service._names self
       = ["Alice"%string; "Alice"%string; "Bob"%string]
    /\ List.length (insightface_service._encodings self)
       = List.length (insightface_service._names self)
    /\ exists i label,
         Np.argmin (insightface_service.distances_to self 2.2) = Ok i
         /\ (i < List.length (insightface_service._names self))%nat
         /\ Py.getitem (insightface_service._names self) i = Ok label
         /\ insightface_service._match_embedding self 2.2 <> Raise IndexError.
Proof.
  eexists. split; [reflexivity|]. split; [reflexivity|]. split; [reflexivity|].
  destruct (@loaded_gallery_index_in_range line_backend Sample.known_faces 0.8
              _ eq_refl) as [Hlen Hmatch].
  split; [exact Hlen|].
  apply Hmatch. discriminate.
Defined.

(** ** The frame processor *)

Lemma mapM_Forall2 (A C : Type) (f : A -> outcome C) (l : list A) :
  forall ys, mapM f l = Ok ys -> Forall2 (fun x y => f x = Ok y) l ys.
Proof.
  induction l as [|x l IH]; simpl; intros ys H.
  - injection H as <-. constructor.
  - destruct (f x) as [y|] eqn:Ey; cbn [bind] in H; [|discriminate].
    destruct (mapM f l) as [ys'|]; cbn [bind] in H; [|discriminate].
    injection H as <-. constructor; auto.
Qed.


Section ProcessorClaims.
Context {B : Backend}.
Import face_recognizer insightface_service.



End ProcessorClaims.


(** ** The frame-rate generator *)

Section FpsClaims.
Variable perf_counter : nat -> Q.
Import helpers.

(** One resumption of the generator, [last] being the previous reading and
    [k] the number of clock readings made so far. *)
Lemma next_from (g : fps_gen) (last : Q) (k : nat) :
  match last_time g with
  | Some t => (t, calls g)
  | None => (perf_counter (calls g), S (calls g))
  end = (last, k) ->
  exists fps,
    next perf_counter g
    = Ok (perf_counter k - last, fps,
          {| last_time := Some (perf_counter k); calls := S k |})
    /\ (0 < perf_counter k - last -> fps == / (perf_counter k - last))
    /\ (perf_counter k - last <= 0 -> fps = 0).
Proof.
  intro Hg. unfold next. rewrite Hg.
  destruct (Py.ltb 0 (perf_counter k - last)) eqn:E.
  - apply ltb_true in E.
    rewrite truediv_nonzero by lra. cbn [bind].
    eexists. split; [reflexivity|]. split.
    + intros _. unfold Qdiv. apply Qmult_1_l.
    + intro H. lra.
  - apply ltb_false in E. cbn [bind].
    eexists. split; [reflexivity|]. split.
    + intro H. lra.
    + reflexivity.
Qed.

Lemma next_returns (g : fps_gen) :
  exists y g', next perf_counter g = Ok (y, g').
Proof.
  destruct (match last_time g with
            | Some t => (t, calls g)
            | None => (perf_counter (calls g), S (calls g))
            end) as [last k] eqn:Hg.
  destruct (next_from g Hg) as (fps & -> & _). now eexists; eexists.
Qed.

(** Suspended after the reading number [m], the generator next yields the
    difference between readings [m + n + 1] and [m + n] at its [n]-th
    resumption. *)
Lemma nth_yield_suspended (n : nat) :
  forall m,
  exists fps,
    nth_yield perf_counter n
      {| last_time := Some (perf_counter m); calls := S m |}
    = Ok (perf_counter (S (m + n)) - perf_counter (m + n), fps)
    /\ (0 < perf_counter (S (m + n)) - perf_counter (m + n) ->
        fps == / (perf_counter (S (m + n)) - perf_counter (m + n)))
    /\ (perf_counter (S (m + n)) - perf_counter (m + n) <= 0 -> fps = 0).
Proof.
  induction n as [|n IH]; intro m.
  - destruct (next_from {| last_time := Some (perf_counter m); calls := S m |}
                eq_refl) as (fps & Hnext & Hpos & Hzero).
    exists fps. rewrite Nat.add_0_r. simpl. rewrite Hnext. cbn [bind fst].
    auto.
  - destruct (next_from {| last_time := Some (perf_counter m); calls := S m |}
                eq_refl) as (fps0 & Hnext & _).
    destruct (IH (S m)) as (fps & Hrun & Hpos & Hzero).
    exists fps. simpl. rewrite Hnext. cbn [bind snd].
    replace (m + S n)%nat with (S m + n)%nat by lia.
    auto.
Qed.

(** C9.  Resuming the generator never raises, and at every iteration [n] it
    yields the difference [delta] between this clock reading and the
    previous one together with an estimate that is the reciprocal of
    [delta] when [delta] is positive and 0 when [delta] is zero. *)
Theorem measure_fps_reciprocal_or_zero :
  (forall g, exists y g', next perf_counter g = Ok (y, g'))
  /\ (forall n, exists delta fps,
        nth_yield perf_counter n measure_fps = Ok (delta, fps)
        /\ delta = perf_counter (S n) - perf_counter n
        /\ (0 < delta -> fps == / delta)
        /\ (delta == 0 -> fps = 0)).
Proof.
  split; [exact next_returns|].
  intro n.
  destruct (next_from measure_fps eq_refl) as (fps0 & Hnext & Hpos0 & Hzero0).
  simpl in Hnext, Hpos0, Hzero0.
  destruct n as [|n].
  - exists (perf_counter 1 - perf_counter 0), fps0.
    simpl. rewrite Hnext. cbn [bind fst].
    repeat split; auto. intro H. apply Hzero0. lra.
  - destruct (nth_yield_suspended n 1) as (fps & Hrun & Hpos & Hzero).
    exists (perf_counter (S (S n)) - perf_counter (S n)), fps.
    simpl. rewrite Hnext. cbn [bind snd]. simpl in Hrun.
    repeat split; auto. intro H. apply Hzero. simpl. lra.
Qed.

End FpsClaims.

(** Witness of C9: a clock advancing by 40 ms gives 25 frames per second,
    and a clock that stands still gives 0. *)
Lemma measure_fps_reciprocal_or_zero_witness :
  (exists delta fps,
     helpers.nth_yield Sample.clock 3 helpers.measure_fps = Ok (delta, fps)
     /\ delta == 0.04 /\ fps == 25)
  /\ (exists fps,
        helpers.nth_yield (fun _ => 7) 3 helpers.measure_fps = Ok (7 - 7, fps)
        /\ fps = 0).
Proof.
  split.
  - destruct (proj2 (measure_fps_reciprocal_or_zero Sample.clock) 3%nat)
      as (delta & fps & Hrun & Hdelta & Hpos & _).
    exists delta, fps. split; [exact Hrun|].
    assert (Hd : delta == 0.04) by (rewrite Hdelta; reflexivity).
    split; [exact Hd|].
    rewrite Hpos by (rewrite Hd; reflexivity).
    rewrite Hd. reflexivity.
  - destruct (proj2 (measure_fps_reciprocal_or_zero (fun _ => 7)) 3%nat)
      as (delta & fps & Hrun & Hdelta & _ & Hzero).
    exists fps. subst delta. split; [exact Hrun|].
    apply Hzero. reflexivity.
Defined.

(** ** The driver loop *)

Section LoopClaims.
Context {B : Backend}.
Variable service : insightface_service.InsightFaceService.
Variable perf_counter : nat -> Q.
Import main.

(** While the loop is still running after the passes of [prefix], the
    passes of [rest] follow with the generator resumed once per pass. *)
Lemma loop_app_running (prefix rest : list iteration) :
  forall g,
    snd (loop service perf_counter prefix g) = None ->
    loop service perf_counter (prefix ++ rest) g
    = (fst (loop service perf_counter prefix g)
         ++ fst (loop service perf_counter rest
                   (helpers.advance perf_counter (List.length prefix) g)),
       snd (loop service perf_counter rest
              (helpers.advance perf_counter (List.length prefix) g))).
Proof.
  induction prefix as [|it prefix IH]; intros g Hrunning.
  - simpl. now destruct (loop service perf_counter rest g).
  - simpl in *.
    destruct (helpers.next perf_counter g) as [[[delta fps] g']|];
      [|discriminate].
    destruct (body service it fps) as [evs c].
    destruct c; try discriminate.
    specialize (IH g').
    destruct (loop service perf_counter prefix g') as [tr st].
    simpl in Hrunning. rewrite (IH Hrunning). simpl.
    now rewrite app_assoc.
Qed.

(** C8.  In a pass where the camera reports failure, whatever passes came
    before it, the driver makes the read, logs the warning and nothing else
    (no processing, no rendering, no key poll), and the loop goes on with
    the next pass: its trace and its way of ending are those of the
    remaining passes. *)
Theorem failed_read_is_skipped
    (prefix rest : list iteration) (it : iteration) (g : helpers.fps_gen)
    (frame : Image) :
  get_frame it = Ok (false, frame) ->
  snd (loop service perf_counter prefix g) = None ->
  exists y g',
    helpers.next perf_counter
      (helpers.advance perf_counter (List.length prefix) g) = Ok (y, g')
    /\ body service it (snd y) = ([GetFrame; warning_read_failed], Continue)
    /\ occurrences is_processing (fst (body service it (snd y))) = 0%nat
    /\ loop service perf_counter (prefix ++ it :: rest) g
       = (fst (loop service perf_counter prefix g)
            ++ [GetFrame; warning_read_failed]
            ++ fst (loop service perf_counter rest g'),
          snd (loop service perf_counter rest g')).
Proof.
  intros Hread Hrunning.
  destruct (next_returns perf_counter
              (helpers.advance perf_counter (List.length prefix) g))
    as ([delta fps] & g' & Hnext).
  exists (delta, fps), g'.
  assert (Hbody : body service it fps
                  = ([GetFrame; warning_read_failed], Continue))
    by (unfold body; rewrite Hread; reflexivity).
  split; [exact Hnext|]. split; [exact Hbody|]. split.
  - simpl. rewrite Hbody. reflexivity.
  - rewrite (loop_app_running prefix (it :: rest) g Hrunning).
    simpl. rewrite Hnext, Hbody.
    destruct (loop service perf_counter rest g') as [tr st]. reflexivity.
Qed.

(** The passes of the loop never close the window nor release the camera. *)
Lemma body_no_cleanup (it : iteration) (fps : Q) :
  occurrences is_view_close (fst (body service it fps)) = 0%nat
  /\ occurrences is_camera_shutdown (fst (body service it fps)) = 0%nat.
Proof.
  unfold body.
  destruct (get_frame it) as [[[|] frame]|]; simpl; auto.
  destruct (face_controller.process_frame service frame); simpl; auto.
  destruct (render_frame it); simpl; auto.
  destruct (waitKey it) as [key|]; simpl; auto.
  destruct (video_view.process_events key); simpl; auto.
Qed.

Lemma occurrences_app (p : event -> bool) (l1 l2 : list event) :
  occurrences p (l1 ++ l2) = (occurrences p l1 + occurrences p l2)%nat.
Proof. unfold occurrences. now rewrite filter_app, length_app. Qed.

Lemma loop_no_cleanup (script : list iteration) :
  forall g,
    occurrences is_view_close (fst (loop service perf_counter script g)) = 0%nat
    /\ occurrences is_camera_shutdown
         (fst (loop service perf_counter script g)) = 0%nat.
Proof.
  induction script as [|it rest IH]; intro g; simpl; [auto|].
  destruct (helpers.next perf_counter g) as [[[delta fps] g']|]; simpl; [|auto].
  pose proof (body_no_cleanup it fps) as [Hclose Hrelease].
  destruct (body service it fps) as [evs c]. simpl in Hclose, Hrelease.
  destruct c; simpl; auto.
  specialize (IH g').
  destruct (loop service perf_counter rest g') as [tr st]. simpl in *.
  rewrite !occurrences_app. lia.
Qed.

(** The loop never ends a script on [Continue]. *)
Lemma loop_status (script : list iteration) :
  forall g, snd (loop service perf_counter script g) <> Some Continue.
Proof.
  induction script as [|it rest IH]; intro g; simpl; [discriminate|].
  destruct (helpers.next perf_counter g) as [[[delta fps] g']|]; simpl;
    [|discriminate].
  destruct (body service it fps) as [evs c].
  destruct c; simpl; try discriminate.
  specialize (IH g').
  destruct (loop service perf_counter rest g') as [tr st]. exact IH.
Qed.


(** [main.run] is the run whose four handler calls return. *)
Lemma run_returning (script : list iteration) :
  main_finally.run service perf_counter script main_finally.returning
  = run service perf_counter script.
Proof.
  unfold main_finally.run, run.
  destruct (loop service perf_counter script helpers.measure_fps)
    as [tr [[| |[]]|]]; reflexivity.
Qed.

(** Once the loop is left, the trace is what the passes did, then possibly
    the note of the interrupt, then the calls that [finally] got to make;
    and an exception raised in [finally] is the one that propagates. *)
Lemma run_left_trace (script : list iteration) (h : main_finally.handlers) :
  snd (main_finally.run service perf_counter script h) <> StillLooping ->
  exists passes,
    fst (main_finally.run service perf_counter script h)
    = passes ++ fst (main_finally.finally_clause h)
    /\ occurrences is_view_close passes = 0%nat
    /\ occurrences is_camera_shutdown passes = 0%nat
    /\ forall e, snd (main_finally.finally_clause h) = Some e ->
         snd (main_finally.run service perf_counter script h) = Propagated e.
Proof.
  unfold main_finally.run.
  pose proof (loop_no_cleanup script helpers.measure_fps)
    as [Hclose Hrelease].
  destruct (loop service perf_counter script helpers.measure_fps)
    as [tr st]. simpl in Hclose, Hrelease.
  destruct st as [[| |e]|]; simpl; try congruence; intros _.
  - unfold main_finally.leave.
    destruct (main_finally.finally_clause h) as [cleanup failed]. simpl.
    exists tr. repeat split; auto.
    intros e ->. reflexivity.
  - unfold main_finally.leave.
    destruct (main_finally.except_clause e h) as [handled pending] eqn:Hexcept.
    destruct (main_finally.finally_clause h) as [cleanup failed]. simpl.
    exists (tr ++ handled).
    assert (Hhandled : occurrences is_view_close handled = 0%nat
                       /\ occurrences is_camera_shutdown handled = 0%nat).
    { unfold main_finally.except_clause in Hexcept.
      destruct e; injection Hexcept as <- _; split; reflexivity. }
    destruct Hhandled as [Hc Hr].
    rewrite <- app_assoc, !occurrences_app. repeat split; try lia.
    intros e' ->. reflexivity.
Qed.


(** Each way out of the loop reaches that shutdown: the quit key returns,
    an interrupt is caught and returns, any other exception propagates. *)
Lemma run_exit_paths (script : list iteration) :
  match snd (loop service perf_counter script helpers.measure_fps) with
  | None | Some Continue =>
      snd (run service perf_counter script) = StillLooping
  | Some Break | Some (Raised KeyboardInterrupt) =>
      snd (run service perf_counter script) = Returned
  | Some (Raised e) => snd (run service perf_counter script) = Propagated e
  end.
Proof.
  unfold run.
  destruct (loop service perf_counter script helpers.measure_fps)
    as [tr [[| |[]]|]]; reflexivity.
Qed.

End LoopClaims.

(** Witness of C8: five passes with the camera failing on the third.  The
    third pass only reads and warns, the fourth and fifth follow, and the
    whole run is still looping with five reads and four frames processed. *)
Lemma failed_read_is_skipped_witness :
  (exists y g',
     helpers.next Sample.clock
       (helpers.advance Sample.clock 2 helpers.measure_fps) = Ok (y, g')
     /\ main.body Sample.alice Sample.dropped (snd y)
        = ([main.GetFrame; main.warning_read_failed], main.Continue)
     /\ main.occurrences main.is_processing
          (fst (main.body Sample.alice Sample.dropped (snd y))) = 0%nat
     /\ main.loop Sample.alice Sample.clock Sample.five_passes
          helpers.measure_fps
        = (fst (main.loop Sample.alice Sample.clock
                  (firstn 2 Sample.five_passes) helpers.measure_fps)
             ++ [main.GetFrame; main.warning_read_failed]
             ++ fst (main.loop Sample.alice Sample.clock
                       (skipn 3 Sample.five_passes) g'),
           snd (main.loop Sample.alice Sample.clock
                  (skipn 3 Sample.five_passes) g')))
  /\ snd (main.run Sample.alice Sample.clock Sample.five_passes)
     = main.StillLooping
  /\ main.occurrences
       (fun ev => match ev with main.GetFrame => true | _ => false end)
       (fst (main.run Sample.alice Sample.clock Sample.five_passes)) = 5%nat
  /\ main.occurrences
       (fun ev => match ev with main.ProcessFrame _ => true | _ => false end)
       (fst (main.run Sample.alice Sample.clock Sample.five_passes)) = 4%nat.
Proof.
  split.
  - exact (@failed_read_is_skipped line_backend Sample.alice Sample.clock
             (firstn 2 Sample.five_passes) (skipn 3 Sample.five_passes)
             Sample.dropped helpers.measure_fps [] eq_refl eq_refl).
  - repeat split; reflexivity.
Defined.



(** * Further properties of the sources *)

(** ** The largest face of a reference image *)

Section LargestFace.
Variable A : Type.
Variable key : A -> Q.

(** The invariant of the scan of [max] over [pre ++ l]: [best] sits at
    [best_i] among the elements already seen, none of them has a larger
    key and none before [best_i] has a key as large. *)
Lemma max_key_from_first_maximum (l pre : list A) (best_i : nat) (best : A) :
  nth_error pre best_i = Some best ->
  (forall x, In x pre -> key x <= key best) ->
  (forall j x, (j < best_i)%nat -> nth_error pre j = Some x -> key x < key best) ->
  exists i,
    nth_error (pre ++ l) i = Some (Py.max_key_from key best l)
    /\ (forall x, In x (pre ++ l) -> key x <= key (Py.max_key_from key best l))
    /\ (forall j x, (j < i)%nat -> nth_error (pre ++ l) j = Some x ->
          key x < key (Py.max_key_from key best l)).
Proof.
  revert pre best_i best.
  induction l as [|y l IH]; intros pre best_i best Hat Hmax Hfirst.
  - simpl. rewrite app_nil_r. exists best_i. auto.
  - simpl.
    assert (Hlen : (best_i < List.length pre)%nat)
      by (apply nth_error_Some; congruence).
    replace (pre ++ y :: l) with ((pre ++ [y]) ++ l)
      by (rewrite <- app_assoc; reflexivity).
    destruct (Py.ltb (key best) (key y)) eqn:E.
    + apply ltb_true in E.
      apply (IH (pre ++ [y]) (List.length pre) y).
      * rewrite nth_error_app2 by lia. now rewrite Nat.sub_diag.
      * intros x Hx. apply in_app_or in Hx. destruct Hx as [Hx|[<-|[]]].
        -- specialize (Hmax x Hx). lra.
        -- lra.
      * intros j x Hj Hx. rewrite nth_error_app1 in Hx by assumption.
        apply nth_error_In in Hx. specialize (Hmax x Hx). lra.
    + apply ltb_false in E.
      apply (IH (pre ++ [y]) best_i best).
      * now rewrite nth_error_app1.
      * intros x Hx. apply in_app_or in Hx. destruct Hx as [Hx|[<-|[]]]; auto.
      * intros j x Hj Hx. rewrite nth_error_app1 in Hx by lia. eauto.
Qed.

End LargestFace.

Section LargestFaceClaims.
Context {B : Backend}.
Import insightface_service.

(** X1.  A reference image without a face gives no embedding; otherwise
    the embedding returned is that of a detected face whose box area no
    other face of the image exceeds, and the first such face in the
    detector's order. *)
Theorem largest_face_is_embedded (image : Image) :
  (get image = [] -> _compute_embedding_for_image image = None)
  /\ (get image <> [] ->
      exists i face,
        nth_error (get image) i = Some face
        /\ _compute_embedding_for_image image = Some (embedding face)
        /\ (forall other, In other (get image) -> _area other <= _area face)
        /\ (forall j other, (j < i)%nat ->
              nth_error (get image) j = Some other ->
              _area other < _area face)).
Proof.
  unfold _compute_embedding_for_image. split.
  - now intros ->.
  - intros Hne. destruct (get image) as [|face faces]; [congruence|].
    destruct (@max_key_from_first_maximum _ _area faces [face] 0 face)
      as (i & Hat & Hmax & Hfirst).
    + reflexivity.
    + intros x [<-|[]]. lra.
    + intros j x Hj. lia.
    + exists i, (Py.max_key_from _area face faces). auto.
Qed.

End LargestFaceClaims.

(** Witness of X1: of two faces the second has the larger box, and its
    embedding is the one kept. *)
Lemma largest_face_is_embedded_witness :
  exists i face,
    nth_error [Sample.one_face 3;
               {| bbox := (0, 0, 200, 200); embedding := 4 |}] i = Some face
    /\ insightface_service._compute_embedding_for_image (B := line_backend)
         [Sample.one_face 3; {| bbox := (0, 0, 200, 200); embedding := 4 |}]
       = Some 4
    /\ embedding face = 4.
Proof.
  destruct (proj2 (@largest_face_is_embedded line_backend
                     [Sample.one_face 3;
                      {| bbox := (0, 0, 200, 200); embedding := 4 |}]))
    as (i & face & Hat & Hemb & _).
  - discriminate.
  - exists i, face. split; [exact Hat|]. split; [reflexivity|].
    assert (H : Some (embedding face) = Some 4)
      by (rewrite <- Hemb; reflexivity).
    now injection H.
Defined.

(** ** What the gallery load stores *)

Section LoadContents.
Context {B : Backend}.
Import insightface_service.

Lemma extends_refl (self : InsightFaceService) : extends self self [].
Proof. unfold extends. simpl. now rewrite !app_nil_r. Qed.

Lemma extends_trans (a b c : InsightFaceService)
    (xs ys : list (string * Embedding)) :
  extends a b xs -> extends b c ys -> extends a c (xs ++ ys).
Proof.
  unfold extends. intros (Hn1 & He1 & Ht1 & Hd1) (Hn2 & He2 & Ht2 & Hd2).
  rewrite Hn2, He2, Hn1, He1, !map_app, !app_assoc. repeat split; congruence.
Qed.

Lemma load_image_extends (n : string) (self : InsightFaceService)
    (image : option Image) :
  extends self (load_image n self image)
    match usable image with
    | Some e => [(n, e)]
    | None => []
    end.
Proof.
  unfold load_image, usable. destruct image as [img|].
  - destruct (_compute_embedding_for_image img) as [e|].
    + unfold extends, append_known. simpl. auto.
    + apply extends_refl.
  - apply extends_refl.
Qed.

Lemma load_images_extends (n : string) (images : list (option Image)) :
  forall self,
    extends self (fold_left (load_image n) images self)
      (flat_map (fun image =>
                   match usable image with
                   | Some e => [(n, e)]
                   | None => []
                   end) images).
Proof.
  induction images as [|image images IH]; intro self; simpl.
  - apply extends_refl.
  - eapply extends_trans; [apply load_image_extends | apply IH].
Qed.

Lemma load_person_extends (self : InsightFaceService)
    (person_dir : pathlib.Entry (option Image)) :
  extends self (load_person self person_dir) (entries_of person_dir).
Proof.
  unfold load_person, entries_of.
  destruct (pathlib.is_dir person_dir); simpl.
  - apply load_images_extends.
  - apply extends_refl.
Qed.

Lemma load_persons_extends (entries : list (pathlib.Entry (option Image))) :
  forall self,
    extends self (fold_left load_person entries self) (gallery_of entries).
Proof.
  unfold gallery_of.
  induction entries as [|entry entries IH]; intro self; simpl.
  - apply extends_refl.
  - eapply extends_trans; [apply load_person_extends | apply IH].
Qed.

(** Where an item of [gallery_of] comes from. *)
Lemma gallery_of_origin (entries : list (pathlib.Entry (option Image)))
    (label : string) (e : Embedding) :
  In (label, e) (gallery_of entries) ->
  exists person_dir image,
    In person_dir entries
    /\ pathlib.is_dir person_dir = true
    /\ pathlib.name person_dir = label
    /\ In (Some image) (pathlib.glob_jpg person_dir)
    /\ _compute_embedding_for_image image = Some e.
Proof.
  unfold gallery_of. intro H.
  apply in_flat_map in H. destruct H as (person_dir & Hdir & H).
  unfold entries_of in H.
  destruct (pathlib.is_dir person_dir) eqn:Eis; [|contradiction].
  apply in_flat_map in H. destruct H as (image & Himage & H).
  destruct image as [img|]; simpl in H; [|contradiction].
  destruct (_compute_embedding_for_image img) as [e'|] eqn:Ee;
    [|contradiction].
  destruct H as [[= <- <-]|[]].
  exists person_dir, img. auto.
Qed.

(** X2.  Loading from an existing directory returns, and only appends: the
    labels and embeddings held before stay in place, followed, in directory
    order, by one entry per image of a sub-directory that is readable and
    shows a face, under the name of that sub-directory; entries that are
    not directories, unreadable files and images without a face add
    nothing, and the threshold and the directory are left as they were. *)
Theorem load_appends_usable_images (self : InsightFaceService)
    (entries : list (pathlib.Entry (option Image))) :
  known_faces_dir self = pathlib.Directory entries ->
  exists loaded,
    _load_known_faces self = Ok loaded
    /\ _names loaded = _names self ++ map fst (gallery_of entries)
    /\ _encodings loaded = _encodings self ++ map snd (gallery_of entries)
    /\ tolerance loaded = tolerance self
    /\ known_faces_dir loaded = known_faces_dir self.
Proof.
  intro Hdir.
  exists (fold_left load_person entries self). split.
  - unfold _load_known_faces. rewrite Hdir. reflexivity.
  - apply load_persons_extends.
Qed.

(** X3.  Every label of a constructed service is the name of a
    sub-directory of the gallery directory that holds a readable image
    with at least one face; a plain file at the top of the gallery never
    becomes a label. *)
Theorem stored_labels_are_subdirectories
    (dir : pathlib.Path (option Image)) (t : Q)
    (self : InsightFaceService) (label : string) :
  __post_init__ dir t = Ok self ->
  In label (_names self) ->
  exists entries person_dir image,
    dir = pathlib.Directory entries
    /\ In person_dir entries
    /\ pathlib.is_dir person_dir = true
    /\ pathlib.name person_dir = label
    /\ In (Some image) (pathlib.glob_jpg person_dir)
    /\ get image <> [].
Proof.
  unfold __post_init__, _load_known_faces. simpl.
  destruct dir as [| |entries]; simpl.
  - intros [= <-]. simpl. contradiction.
  - discriminate.
  - intros [= <-] Hin.
    destruct (load_persons_extends entries
                {| known_faces_dir := pathlib.Directory entries;
                   tolerance := t; _encodings := []; _names := [] |})
      as (Hnames & _).
    rewrite Hnames in Hin. simpl in Hin.
    apply in_map_iff in Hin. destruct Hin as ([label' e] & Hfst & Hin).
    simpl in Hfst. subst label'.
    destruct (gallery_of_origin _ _ _ Hin)
      as (person_dir & image & Hdir & Hisdir & Hname & Hglob & Hemb).
    exists entries, person_dir, image. repeat split; auto.
    intro Hnone. unfold _compute_embedding_for_image in Hemb.
    rewrite Hnone in Hemb. discriminate.
Qed.

End LoadContents.

(** Witness of X2: onto a service holding Zoe, the sample directory loads
    Alice (twice) and Bob. *)
Lemma load_appends_usable_images_witness :
  exists loaded,
    insightface_service._load_known_faces Fixture.zoe = Ok loaded
    /\ insightface_service._names loaded
       = ["Zoe"; "Alice"; "Alice"; "Bob"]%string
    /\ insightface_service._encodings loaded = [9; 1; 4; 2].
Proof.
  destruct (@load_appends_usable_images line_backend Fixture.zoe _ eq_refl)
    as (loaded & Hload & Hnames & Hencodings & _).
  exists loaded. split; [exact Hload|]. split; assumption.
Defined.

(** Witness of X3: the label ["Bob"] of the sample gallery. *)
Lemma stored_labels_are_subdirectories_witness :
  exists entries person_dir image,
    Sample.known_faces = pathlib.Directory entries
    /\ In person_dir entries
    /\ pathlib.is_dir person_dir = true
    /\ pathlib.name person_dir = "Bob"%string
    /\ In (Some image) (pathlib.glob_jpg person_dir)
    /\ get (Backend := line_backend) image <> [].
Proof.
  apply (@stored_labels_are_subdirectories line_backend Sample.known_faces 0.8
           _ "Bob"%string eq_refl).
  simpl. auto.
Defined.

(** ** More on the matcher *)

Lemma ratio_bounds (d t : Q) :
  0 <= d -> d <= t -> 0 < t -> 0 <= d / t /\ d / t <= 1.
Proof.
  intros Hd Hle Ht. split.
  - apply Qle_shift_div_l; [assumption | lra].
  - apply Qle_shift_div_r; [assumption | lra].
Qed.

Lemma ratio_zero (d t : Q) : ~ t == 0 -> (d / t == 0 <-> d == 0).
Proof.
  intro Ht. split; intro H.
  - transitivity (t * (d / t)).
    + symmetry. now apply Qmult_div_r.
    + rewrite H. ring.
  - rewrite H. unfold Qdiv. ring.
Qed.

Lemma ratio_one (d t : Q) : ~ t == 0 -> (d / t == 1 <-> d == t).
Proof.
  intro Ht. split; intro H.
  - transitivity (t * (d / t)).
    + symmetry. now apply Qmult_div_r.
    + rewrite H. ring.
  - rewrite H. unfold Qdiv. now apply Qmult_inv_r.
Qed.

Section MatcherExtras.
Context {B : Backend}.
Import face_recognizer insightface_service.

(** Beyond the threshold the label list is not even read. *)
Lemma match_beyond_threshold (self : InsightFaceService) (e : Embedding)
    (i : nat) (d : Q) :
  first_minimum (distances_to self e) i d ->
  tolerance self < d ->
  _match_embedding self e = Ok unknown.
Proof.
  intros Hfm Hgt.
  pose proof (argmin_is_first_minimum Hfm) as Harg.
  pose proof (first_minimum_in_range Hfm) as Hi.
  rewrite distances_length in Hi.
  destruct Hfm as (Hat & _).
  unfold _match_embedding.
  destruct (_encodings self) as [|r0 rs] eqn:Eenc; [reflexivity|].
  rewrite Harg. cbn [bind]. rewrite (getitem_nth _ _ Hat). cbn [bind].
  apply leb_false in Hgt. now rewrite Hgt.
Qed.

Lemma nonempty_first_minimum (self : InsightFaceService) (e : Embedding) :
  _encodings self <> [] ->
  exists i d row,
    first_minimum (distances_to self e) i d
    /\ nth_error (_encodings self) i = Some row
    /\ d = linalg_norm (sub_row row e).
Proof.
  intro Hne.
  assert (Hdne : distances_to self e <> []).
  { intro H0. apply Hne. apply length_zero_iff_nil.
    rewrite <- (distances_length self e), H0. reflexivity. }
  destruct (argmin_first_minimum Hdne) as (i & d & _ & Hfm).
  pose proof (first_minimum_in_range Hfm) as Hi.
  rewrite distances_length in Hi.
  destruct (getitem_in_range (_encodings self) Hi) as [row Hrow].
  exists i, d, row. repeat split; try assumption; try apply Hfm.
  destruct Hfm as (Hat & _). rewrite distances_nth, Hrow in Hat.
  simpl in Hat. congruence.
Qed.

(** What the matcher computes up to the label lookup, once the first least
    distance [d] is known to sit at [i]. *)
Lemma match_up_to_label (self : InsightFaceService) (e : Embedding)
    (i : nat) (d : Q) :
  first_minimum (distances_to self e) i d ->
  _match_embedding self e
  = if Py.leb d (tolerance self) then
      ratio <- Py.truediv d (tolerance self) ;;
      n <- Py.getitem (_names self) i ;;
      Ok {| name := n; confidence := Py.max 0 (Py.min 1 (1 - ratio)) |}
    else Ok unknown.
Proof.
  intro Hfm.
  pose proof (argmin_is_first_minimum Hfm) as Harg.
  pose proof (first_minimum_in_range Hfm) as Hi.
  rewrite distances_length in Hi.
  destruct Hfm as (Hat & _).
  unfold _match_embedding.
  destruct (_encodings self) as [|r0 rs] eqn:Eenc; [simpl in Hi; lia|].
  rewrite Harg. cbn [bind].
  rewrite (getitem_nth _ _ Hat). cbn [bind]. reflexivity.
Qed.

(** A division by zero in the matcher tells a zero threshold and a least
    distance that is not positive. *)
Lemma match_division_inversion (self : InsightFaceService) (e : Embedding) :
  _match_embedding self e = Raise ZeroDivisionError ->
  tolerance self == 0
  /\ exists i d, first_minimum (distances_to self e) i d /\ d <= 0.
Proof.
  intro Hraise.
  destruct (_encodings self) as [|r0 rs] eqn:Eenc.
  { unfold _match_embedding in Hraise. rewrite Eenc in Hraise.
    discriminate. }
  assert (Hne : _encodings self <> []) by congruence.
  destruct (nonempty_first_minimum self e Hne) as (i & d & row & Hfm & _).
  rewrite (match_up_to_label self e Hfm) in Hraise.
  destruct (Py.leb d (tolerance self)) eqn:Ele; [|discriminate].
  apply leb_true in Ele.
  unfold Py.truediv in Hraise.
  destruct (Qeq_bool (tolerance self) 0) eqn:Ez; cbn [bind] in Hraise.
  - apply Qeq_bool_iff in Ez. split; [assumption|].
    exists i, d. split; [assumption | lra].
  - destruct (Py.getitem (_names self) i) as [n|ex] eqn:Eget;
      cbn [bind] in Hraise; [discriminate|].
    unfold Py.getitem in Eget.
    destruct (nth_error (_names self) i); [discriminate|].
    congruence.
Qed.

(** X4.  The matcher raises [ZeroDivisionError] exactly when the threshold
    is zero and the least distance from the gallery to the query is not
    positive (so the gallery is not empty).  The quotient
    [best_distance / tolerance] is computed before the label is looked up,
    so this holds whether or not the label list is as long as the
    embeddings. *)
Theorem match_divides_by_zero_exactly_at_zero_threshold
    (self : InsightFaceService) (e : Embedding) :
  _match_embedding self e = Raise ZeroDivisionError
  <-> tolerance self == 0
      /\ exists i d, first_minimum (distances_to self e) i d /\ d <= 0.
Proof.
  split.
  - apply match_division_inversion.
  - intros (Hzero & i & d & Hfm & Hd).
    rewrite (match_up_to_label self e Hfm).
    assert (Hle : Py.leb d (tolerance self) = true)
      by (apply leb_true; lra).
    rewrite Hle, (truediv_zero _ Hzero). reflexivity.
Qed.

(** X5.  When the norm is never negative and the threshold is positive,
    the matcher returns on every non-empty paired gallery, and for a least
    distance [d] within the threshold the confidence is [1 - d / threshold],
    the clamp cutting nothing: it lies between 0 and 1, is 1 for [d = 0]
    and 0 for [d = threshold].  Beyond the threshold the result is
    ["Unknown"]. *)
Theorem confidence_is_one_minus_ratio
    (self : InsightFaceService) (e : Embedding) :
  (forall row, 0 <= linalg_norm row) ->
  paired self -> _encodings self <> [] -> 0 < tolerance self ->
  exists i d r,
    first_minimum (distances_to self e) i d
    /\ _match_embedding self e = Ok r
    /\ (d <= tolerance self ->
        confidence r == 1 - d / tolerance self
        /\ 0 <= 1 - d / tolerance self <= 1
        /\ (d == 0 -> confidence r == 1)
        /\ (d == tolerance self -> confidence r == 0))
    /\ (tolerance self < d -> r = unknown).
Proof.
  intros Hnorm Hpaired Hne Hpos.
  destruct (paired_first_minimum e Hpaired Hne)
    as (i & d & row & label & Hfm & _ & Hd & Hlabel).
  assert (Hd0 : 0 <= d) by (rewrite Hd; apply Hnorm).
  assert (Hnz : ~ tolerance self == 0) by lra.
  pose proof (match_at_first_minimum self e Hfm Hlabel) as Hmatch.
  destruct (Py.leb d (tolerance self)) eqn:Ele.
  - apply leb_true in Ele.
    rewrite (truediv_nonzero _ Hnz) in Hmatch. cbn [bind] in Hmatch.
    eexists i, d, _. split; [exact Hfm|]. split; [exact Hmatch|].
    split; [|intro; lra].
    intros _. simpl.
    destruct (ratio_bounds Hd0 Ele Hpos) as [Hlo Hhi].
    pose proof (ratio_zero d Hnz) as Hzero.
    pose proof (ratio_one d Hnz) as Hone.
    assert (Hconf : Py.max 0 (Py.min 1 (1 - d / tolerance self))
                    == 1 - d / tolerance self).
    { rewrite max_min_is_clamp. revert Hlo Hhi.
      generalize (d / tolerance self). intros q Hlo Hhi.
      unfold clamp. by_cases_on_ltb; lra. }
    rewrite Hconf. revert Hlo Hhi Hzero Hone.
    generalize (d / tolerance self). intros q Hlo Hhi Hzero Hone.
    split; [reflexivity|]. split; [lra|].
    split; intro H.
    + apply Hzero in H. lra.
    + apply Hone in H. lra.
  - apply leb_false in Ele.
    eexists i, d, _. split; [exact Hfm|]. split; [exact Hmatch|].
    split; [intro; lra | reflexivity].
Qed.

(** X6.  When the norm is never negative, a negative threshold matches
    nothing: whatever the gallery and the query, the result is ["Unknown"]
    with confidence 0 and nothing is raised. *)
Theorem negative_threshold_matches_nothing
    (self : InsightFaceService) (e : Embedding) :
  (forall row, 0 <= linalg_norm row) ->
  tolerance self < 0 ->
  _match_embedding self e = Ok {| name := "Unknown"; confidence := 0 |}.
Proof.
  intros Hnorm Hneg.
  destruct (_encodings self) as [|r0 rs] eqn:Eenc.
  - unfold _match_embedding. now rewrite Eenc.
  - assert (Hne : _encodings self <> []) by congruence.
    destruct (nonempty_first_minimum self e Hne) as (i & d & row & Hfm & _ & Hd).
    apply (match_beyond_threshold self e Hfm).
    specialize (Hnorm (sub_row row e)). rewrite Hd. lra.
Qed.

End MatcherExtras.

(** Witness of X5: the gallery of four under the threshold 0.8. *)
Lemma confidence_is_one_minus_ratio_witness :
  exists i d r,
    first_minimum (insightface_service.distances_to Sample.twins 2) i d
    /\ insightface_service._match_embedding Sample.twins 2 = Ok r
    /\ (d <= 0.8 ->
        face_recognizer.confidence r == 1 - d / 0.8
        /\ 0 <= 1 - d / 0.8 <= 1
        /\ (d == 0 -> face_recognizer.confidence r == 1)
        /\ (d == 0.8 -> face_recognizer.confidence r == 0))
    /\ (0.8 < d -> r = insightface_service.unknown).
Proof.
  apply (@confidence_is_one_minus_ratio line_backend Sample.twins 2).
  - exact Qabs_nonneg.
  - reflexivity.
  - discriminate.
  - reflexivity.
Defined.

(** Witness of X6: Alice's own embedding under the threshold -1. *)
Lemma negative_threshold_matches_nothing_witness :
  insightface_service._match_embedding Fixture.negative_tolerance 1
  = Ok {| face_recognizer.name := "Unknown";
          face_recognizer.confidence := 0 |}.
Proof.
  apply (@negative_threshold_matches_nothing line_backend
           Fixture.negative_tolerance 1).
  - exact Qabs_nonneg.
  - reflexivity.
Defined.

(** ** Confidences and empty galleries through the whole pipeline *)

Section PipelineExtras.
Context {B : Backend}.
Import face_recognizer insightface_service.

Lemma recognize_one_confidence_range
    (self : simple_face_recognizer.SimpleFaceRecognizer)
    (enc : Embedding) (r : RecognitionResult) :
  simple_face_recognizer.recognize_one self enc = Ok r ->
  0 <= confidence r /\ confidence r <= 1.
Proof.
  unfold simple_face_recognizer.recognize_one.
  destruct (Np.argmin _) as [i|]; cbn [bind]; [|discriminate].
  destruct (Py.getitem _ i) as [d|]; cbn [bind]; [|discriminate].
  destruct (Py.leb d _).
  - destruct (Py.truediv d _) as [ratio|]; cbn [bind]; [|discriminate].
    destruct (Py.getitem _ i) as [n|]; cbn [bind]; [|discriminate].
    intros [= <-]. simpl. apply max_min_in_unit_interval.
  - intros [= <-]. simpl. lra.
Qed.

(** X7.  Whatever the gallery, the threshold and the inputs, every
    confidence that is returned lies between 0 and 1: that of a result of
    the matcher, of each result of the legacy recognizer, and of each
    overlay of a processed frame. *)
Theorem returned_confidences_in_unit_interval :
  (forall (self : InsightFaceService) (e : Embedding) (r : RecognitionResult),
     _match_embedding self e = Ok r ->
     0 <= confidence r /\ confidence r <= 1)
  /\ (forall face_encodings (self : simple_face_recognizer.SimpleFaceRecognizer)
             (frame : Image) (face_locations : list (Z * Z * Z * Z)) results,
        simple_face_recognizer.recognize face_encodings self frame
          face_locations = Ok results ->
        Forall (fun r => 0 <= confidence r /\ confidence r <= 1) results)
  /\ (forall (service : InsightFaceService) (frame : Image) overlays,
        face_controller.process_frame service frame = Ok overlays ->
        Forall (fun o => 0 <= video_view.confidence o
                         /\ video_view.confidence o <= 1) overlays).
Proof.
  split; [|split].
  - exact match_embedding_confidence_range.
  - intros face_encodings self frame face_locations results.
    unfold simple_face_recognizer.recognize.
    assert (Hunknown : 0 <= confidence simple_face_recognizer.unknown
                       /\ confidence simple_face_recognizer.unknown <= 1)
      by (simpl; lra).
    destruct (simple_face_recognizer._encodings self).
    + intros [= <-]. apply Forall_forall. intros r Hr.
      apply in_map_iff in Hr. destruct Hr as (_ & <- & _). exact Hunknown.
    + destruct (mapM _ _) as [rs|] eqn:E; cbn [bind]; [|discriminate].
      intros [= <-]. apply mapM_Forall2 in E.
      assert (Hrs : Forall (fun r => 0 <= confidence r /\ confidence r <= 1) rs).
      { induction E; constructor; eauto using recognize_one_confidence_range. }
      destruct (_ <? _)%nat; [|exact Hrs].
      apply Forall_app. split; [exact Hrs|].
      apply Forall_forall. intros r Hr. apply repeat_spec in Hr.
      now subst r.
  - intros service frame overlays H.
    unfold face_controller.process_frame, analyze in H.
    destruct (mapM (analyze_face service) (get frame)) as [faces|] eqn:E;
      cbn [bind] in H; [|discriminate].
    injection H as <-. apply mapM_Forall2 in E.
    induction E as [|face recognized fin fout Hhead Htail IH]; simpl;
      constructor; [|exact IH].
    unfold analyze_face in Hhead.
    destruct (bbox face) as [[[x1 y1] x2] y2].
    destruct (_match_embedding service (embedding face)) as [r|] eqn:Er;
      cbn [bind] in Hhead; [|discriminate].
    injection Hhead as <-. simpl.
    exact (match_embedding_confidence_range _ _ Er).
Qed.

(** X8.  A service that holds no embedding labels every detected face
    ["Unknown"] with confidence 0, one overlay per face with that face's
    box, and raises nothing, whatever its threshold (zero included) and
    whatever its label list holds. *)
Theorem empty_gallery_overlays_unknown
    (service : InsightFaceService) (frame : Image) :
  _encodings service = [] ->
  face_controller.process_frame service frame
  = Ok (map (fun face => {| video_view.box := box_of (bbox face);
                            video_view.label := "Unknown";
                            video_view.confidence := 0 |})
            (get frame)).
Proof.
  intro Hempty.
  unfold face_controller.process_frame, analyze.
  assert (Hmap : forall faces,
            mapM (analyze_face service) faces
            = Ok (map (fun face => {| box := box_of (bbox face);
                                      result := unknown |}) faces)).
  { induction faces as [|face faces IH]; simpl; [reflexivity|].
    rewrite IH. unfold analyze_face, _match_embedding, box_of.
    rewrite Hempty. destruct (bbox face) as [[[x1 y1] x2] y2].
    reflexivity. }
  rewrite Hmap. cbn [bind]. now rewrite map_map.
Qed.

End PipelineExtras.

(** Witness of X7: the three parts on the gallery of Alice. *)
Lemma returned_confidences_in_unit_interval_witness :
  (exists r,
     insightface_service._match_embedding Sample.alice 1.3 = Ok r
     /\ 0 <= face_recognizer.confidence r
     /\ face_recognizer.confidence r <= 1)
  /\ exists overlays,
       face_controller.process_frame Sample.alice
         [Sample.one_face 1.3; Sample.one_face 5] = Ok overlays
       /\ Forall (fun o => 0 <= video_view.confidence o
                           /\ video_view.confidence o <= 1) overlays.
Proof.
  destruct (@returned_confidences_in_unit_interval line_backend)
    as (Hmatch & _ & Hframe).
  split.
  - eexists. split; [reflexivity|].
    apply (Hmatch Sample.alice 1.3). reflexivity.
  - eexists. split; [reflexivity|].
    apply (Hframe Sample.alice [Sample.one_face 1.3; Sample.one_face 5]).
    reflexivity.
Defined.

(** Witness of X8: two faces in front of an empty gallery with threshold
    zero. *)
Lemma empty_gallery_overlays_unknown_witness :
  face_controller.process_frame Fixture.nobody
    [Sample.one_face 1; Sample.one_face 2]
  = Ok [ {| video_view.box := (20, 110, 140, 10)%Z;
            video_view.label := "Unknown"; video_view.confidence := 0 |};
         {| video_view.box := (20, 110, 140, 10)%Z;
            video_view.label := "Unknown"; video_view.confidence := 0 |} ].
Proof.
  exact (@empty_gallery_overlays_unknown line_backend Fixture.nobody
           [Sample.one_face 1; Sample.one_face 2] eq_refl).
Defined.

(** ** The legacy recognizer *)

Section LegacyExtras.
Context {B : Backend}.
Import face_recognizer.
Import simple_face_recognizer.

(** On a non-empty gallery one pass of the legacy loop is the matcher of
    the service. *)
Lemma recognize_one_is_match (dir : pathlib.Path (option Image))
    (self : SimpleFaceRecognizer) (enc : Embedding) :
  _encodings self <> [] ->
  recognize_one self enc
  = insightface_service._match_embedding (service_like dir self) enc.
Proof.
  intro Hne.
  unfold recognize_one, insightface_service._match_embedding,
    insightface_service.distances_to, service_like. simpl.
  destruct (_encodings self) as [|r0 rs]; [congruence|]. reflexivity.
Qed.

Lemma mapM_ext (A C : Type) (f g : A -> outcome C) (l : list A) :
  (forall x, f x = g x) -> mapM f l = mapM g l.
Proof.
  intro H. induction l as [|x l IH]; simpl; [reflexivity|].
  now rewrite H, IH.
Qed.

(** X9.  On a non-empty gallery the legacy recognizer gives, for the
    encodings found in the frame and in their order, exactly the results
    the matcher of the service gives on the same gallery and threshold,
    and raises when that matcher does; results are then padded with
    ["Unknown"] up to the number of face locations. *)
Theorem legacy_recognizer_matches_like_service
    (face_encodings : Image -> list (Z * Z * Z * Z) -> list Embedding)
    (dir : pathlib.Path (option Image)) (self : SimpleFaceRecognizer)
    (frame : Image) (face_locations : list (Z * Z * Z * Z)) :
  _encodings self <> [] ->
  recognize face_encodings self frame face_locations
  = (results <- mapM (insightface_service._match_embedding
                        (service_like dir self))
                     (face_encodings frame face_locations) ;;
     Ok (results
           ++ repeat {| name := "Unknown"; confidence := 0 |}
                (List.length face_locations - List.length results))).
Proof.
  intro Hne. unfold recognize.
  destruct (_encodings self) as [|r0 rs] eqn:Eenc; [congruence|].
  rewrite (mapM_ext (recognize_one self)
             (insightface_service._match_embedding (service_like dir self)))
    by (intro enc; apply recognize_one_is_match; congruence).
  destruct (mapM _ _) as [results|]; cbn [bind]; [|reflexivity].
  f_equal.
  destruct (List.length results <? List.length face_locations)%nat eqn:E.
  - reflexivity.
  - apply Nat.ltb_ge in E.
    replace (List.length face_locations - List.length results)%nat
      with 0%nat by lia.
    simpl. now rewrite app_nil_r.
Qed.

(** X10.  The list the legacy recognizer returns is never shorter than the
    list of face locations (missing results are padded, surplus ones are
    kept), and has exactly its length when the frame yields at most one
    encoding per location. *)
Theorem legacy_results_cover_locations
    (face_encodings : Image -> list (Z * Z * Z * Z) -> list Embedding)
    (self : SimpleFaceRecognizer) (frame : Image)
    (face_locations : list (Z * Z * Z * Z))
    (results : list RecognitionResult) :
  recognize face_encodings self frame face_locations = Ok results ->
  (List.length face_locations <= List.length results)%nat
  /\ ((List.length (face_encodings frame face_locations)
       <= List.length face_locations)%nat ->
      List.length results = List.length face_locations).
Proof.
  unfold recognize.
  destruct (_encodings self) as [|r0 rs].
  - intros [= <-]. rewrite length_map. auto.
  - destruct (mapM _ _) as [rs'|] eqn:E; cbn [bind]; [|discriminate].
    intros [= <-]. apply mapM_Forall2 in E. apply Forall2_length in E.
    destruct (List.length rs' <? List.length face_locations)%nat eqn:El.
    + apply Nat.ltb_lt in El.
      rewrite length_app, repeat_length. split; lia.
    + apply Nat.ltb_ge in El. split; lia.
Qed.

End LegacyExtras.

(** Witness of X9: three face locations, the recognizer over Alice and
    Bob. *)
Lemma legacy_recognizer_matches_like_service_witness :
  simple_face_recognizer.recognize (B := line_backend)
    Fixture.encodings_at Fixture.legacy []
    [(13, 0, 0, 0); (50, 0, 0, 0); (20, 0, 0, 0)]%Z
  = (results <- mapM (insightface_service._match_embedding
                        (service_like pathlib.Missing Fixture.legacy))
                     (Fixture.encodings_at []
                        [(13, 0, 0, 0); (50, 0, 0, 0); (20, 0, 0, 0)]%Z) ;;
     Ok (results
           ++ repeat {| face_recognizer.name := "Unknown";
                        face_recognizer.confidence := 0 |}
                (3 - List.length results))).
Proof.
  apply (@legacy_recognizer_matches_like_service line_backend
           Fixture.encodings_at pathlib.Missing Fixture.legacy []
           [(13, 0, 0, 0); (50, 0, 0, 0); (20, 0, 0, 0)]%Z).
  discriminate.
Defined.

(** Witness of X10: the same three locations. *)
Lemma legacy_results_cover_locations_witness :
  exists results,
    simple_face_recognizer.recognize (B := line_backend)
      Fixture.encodings_at Fixture.legacy []
      [(13, 0, 0, 0); (50, 0, 0, 0); (20, 0, 0, 0)]%Z = Ok results
    /\ List.length results = 3%nat.
Proof.
  eexists. split; [reflexivity|].
  apply (@legacy_results_cover_locations line_backend
           Fixture.encodings_at Fixture.legacy []
           [(13, 0, 0, 0); (50, 0, 0, 0); (20, 0, 0, 0)]%Z _ eq_refl).
  simpl. lia.
Defined.

(** ** Loading the legacy gallery *)

Lemma foldM_invariant (A S : Type) (f : S -> A -> outcome S) (P : S -> Prop)
    (l : list A) :
  (forall s x s', P s -> f s x = Ok s' -> P s') ->
  forall s s', P s -> foldM f l s = Ok s' -> P s'.
Proof.
  intro Hstep. induction l as [|x l IH]; simpl; intros s s' Hs H.
  - now injection H as <-.
  - destruct (f s x) as [s1|] eqn:E; cbn [bind] in H; [|discriminate].
    eauto.
Qed.

Lemma foldM_returns (A S : Type) (f : S -> A -> outcome S) (l : list A) :
  (forall s x, In x l -> exists s', f s x = Ok s') ->
  forall s, exists s', foldM f l s = Ok s'.
Proof.
  induction l as [|x l IH]; simpl; intros H s; [now eexists|].
  destruct (H s x (or_introl eq_refl)) as [s1 ->]. cbn [bind].
  apply IH. intros; apply H; now right.
Qed.

Lemma foldM_first_raise (A S : Type) (f : S -> A -> outcome S)
    (l1 l2 : list A) (x : A) (ex : exn) :
  (forall s y, In y l1 -> exists s', f s y = Ok s') ->
  (forall s, f s x = Raise ex) ->
  forall s, foldM f (l1 ++ x :: l2) s = Raise ex.
Proof.
  intros Hl1 Hx. induction l1 as [|y l1 IH]; simpl; intro s.
  - now rewrite Hx.
  - destruct (Hl1 s y (or_introl eq_refl)) as [s1 ->]. cbn [bind].
    apply IH. intros; apply Hl1; now right.
Qed.

Lemma foldM_stops (A S : Type) (f : S -> A -> outcome S) (l : list A) (x : A) :
  In x l -> (forall s, exists ex, f s x = Raise ex) ->
  forall s, exists ex, foldM f l s = Raise ex.
Proof.
  intros Hin Hx. induction l as [|y l IH]; simpl; intro s; [contradiction|].
  destruct (f s y) as [s1|ex] eqn:E; cbn [bind]; [|now eexists].
  destruct Hin as [-> | Hin]; [|now apply IH].
  destruct (Hx s) as [ex' Hraise]. congruence.
Qed.

Section LegacyLoad.
Context {B : Backend}.
Variable face_encodings_in : Image -> list Embedding.
Import simple_face_recognizer.
Import simple_face_recognizer_load.

(** The invariant of the load: one label per encoding, threshold [t]. *)
Lemma load_image_keeps (t : Q) (n : string) (self loaded : SimpleFaceRecognizer)
    (file : outcome Image) :
  List.length (_encodings self) = List.length (_names self)
  /\ tolerance self = t ->
  load_image face_encodings_in n self file = Ok loaded ->
  List.length (_encodings loaded) = List.length (_names loaded)
  /\ tolerance loaded = t.
Proof.
  intros [Hlen Htol]. unfold load_image.
  destruct file as [image|]; cbn [bind]; [|discriminate].
  destruct (face_encodings_in image) as [|enc encs]; intros [= <-].
  - auto.
  - simpl. rewrite !length_app. simpl. split; [lia | assumption].
Qed.

Lemma load_person_keeps (t : Q) (self loaded : SimpleFaceRecognizer)
    (person_dir : pathlib.Entry (outcome Image)) :
  List.length (_encodings self) = List.length (_names self)
  /\ tolerance self = t ->
  load_person face_encodings_in self person_dir = Ok loaded ->
  List.length (_encodings loaded) = List.length (_names loaded)
  /\ tolerance loaded = t.
Proof.
  intros Hself. unfold load_person.
  destruct (negb (pathlib.is_dir person_dir)).
  - now intros [= <-].
  - apply (@foldM_invariant _ _ _
             (fun s => List.length (_encodings s) = List.length (_names s)
                       /\ tolerance s = t)); [|exact Hself].
    intros s x s' Hs. now apply load_image_keeps.
Qed.

(** X11.  A legacy recognizer that its constructor returns holds one label
    per encoding and the threshold it was given; so, on a non-empty
    gallery and for every encoding of a frame, the index [np.argmin]
    returns is within the label list and reading [self._names[best_index]]
    succeeds. *)
Theorem legacy_loaded_recognizer_is_safe
    (dir : pathlib.Path (outcome Image)) (t : Q) (self : SimpleFaceRecognizer) :
  __post_init__ face_encodings_in dir t = Ok self ->
  List.length (_encodings self) = List.length (_names self)
  /\ tolerance self = t
  /\ forall enc : Embedding,
       _encodings self <> [] ->
       exists i label,
         Np.argmin (map (fun row => linalg_norm (sub_row row enc))
                        (_encodings self)) = Ok i
         /\ (i < List.length (_names self))%nat
         /\ Py.getitem (_names self) i = Ok label.
Proof.
  intro Hinit.
  assert (Hkeeps : List.length (_encodings self) = List.length (_names self)
                   /\ tolerance self = t).
  { unfold __post_init__, _load_known_faces in Hinit.
    destruct (negb (pathlib.exists_ dir)).
    - injection Hinit as <-. auto.
    - destruct (pathlib.iterdir dir) as [entries|]; cbn [bind] in Hinit;
        [|discriminate].
      revert Hinit.
      apply (@foldM_invariant _ _ _
               (fun s => List.length (_encodings s) = List.length (_names s)
                         /\ tolerance s = t)); [|simpl; auto].
      intros s x s' Hs. now apply load_person_keeps. }
  destruct Hkeeps as [Hlen Htol].
  split; [exact Hlen|]. split; [exact Htol|].
  intros enc Hne.
  assert (Hpaired : paired (service_like pathlib.Missing self))
    by exact Hlen.
  destruct (@paired_first_minimum _ (service_like pathlib.Missing self) enc
              Hpaired Hne)
    as (i & d & row & label & Hfm & _ & _ & Hlabel).
  exists i, label. repeat split.
  - exact (argmin_is_first_minimum Hfm).
  - apply nth_error_Some. simpl in Hlabel. congruence.
  - exact (getitem_nth _ _ Hlabel).
Qed.

(** Reading the files of a sub-directory stops at an unreadable one. *)
Lemma load_person_unreadable (person_dir : pathlib.Entry (outcome Image))
    (ex : exn) :
  pathlib.is_dir person_dir = true ->
  In (Raise ex) (pathlib.glob_jpg person_dir) ->
  forall self, exists ex', load_person face_encodings_in self person_dir = Raise ex'.
Proof.
  intros Hdir Hin self. unfold load_person. rewrite Hdir. simpl.
  apply (@foldM_stops _ _ _ _ (Raise ex)); [assumption|].
  intro s. exists ex. reflexivity.
Qed.

(** Reading the files of a sub-directory stops at the first unreadable
    one, with the exception of that read. *)
Lemma load_person_first_unreadable
    (person_dir : pathlib.Entry (outcome Image))
    (pre post : list (outcome Image)) (ex : exn) :
  pathlib.is_dir person_dir = true ->
  pathlib.glob_jpg person_dir = pre ++ Raise ex :: post ->
  (forall file, In file pre -> exists image, file = Ok image) ->
  forall self, load_person face_encodings_in self person_dir = Raise ex.
Proof.
  intros Hdir Hfiles Hpre self. unfold load_person.
  rewrite Hdir, Hfiles. simpl.
  apply foldM_first_raise; [|reflexivity].
  intros s file Hin. destruct (Hpre file Hin) as [image ->].
  unfold load_image. cbn [bind].
  destruct (face_encodings_in image); now eexists.
Qed.

(** A sub-directory whose matched files can all be read is loaded. *)
Lemma load_person_readable (person_dir : pathlib.Entry (outcome Image)) :
  (pathlib.is_dir person_dir = true ->
   forall file, In file (pathlib.glob_jpg person_dir) ->
                exists image, file = Ok image) ->
  forall self, exists self',
    load_person face_encodings_in self person_dir = Ok self'.
Proof.
  intros Hreadable self. unfold load_person.
  destruct (pathlib.is_dir person_dir) eqn:Eis; simpl; [|now eexists].
  apply foldM_returns. intros s1 file Hfile.
  destruct (Hreadable eq_refl file Hfile) as [image ->].
  unfold load_image. cbn [bind].
  destruct (face_encodings_in image); now eexists.
Qed.

(** X12.  Unlike the loader of the service, the legacy constructor does
    not skip an unreadable image.  Given a directory, it raises whenever a
    matched file of one of its sub-directories cannot be read; it raises
    the exception of the first such file, the files before it being
    readable; and it returns when every such file can be read. *)
Theorem legacy_load_fails_on_unreadable_image
    (entries : list (pathlib.Entry (outcome Image))) (t : Q) :
  (forall person_dir ex,
     In person_dir entries -> pathlib.is_dir person_dir = true ->
     In (Raise ex) (pathlib.glob_jpg person_dir) ->
     exists ex',
       __post_init__ face_encodings_in (pathlib.Directory entries) t
       = Raise ex')
  /\ (forall before person_dir after pre post ex,
        entries = before ++ person_dir :: after ->
        (forall p file,
           In p before -> pathlib.is_dir p = true ->
           In file (pathlib.glob_jpg p) -> exists image, file = Ok image) ->
        pathlib.is_dir person_dir = true ->
        pathlib.glob_jpg person_dir = pre ++ Raise ex :: post ->
        (forall file, In file pre -> exists image, file = Ok image) ->
        __post_init__ face_encodings_in (pathlib.Directory entries) t
        = Raise ex)
  /\ ((forall person_dir file,
         In person_dir entries -> pathlib.is_dir person_dir = true ->
         In file (pathlib.glob_jpg person_dir) -> exists image, file = Ok image) ->
      exists self,
        __post_init__ face_encodings_in (pathlib.Directory entries) t = Ok self).
Proof.
  unfold __post_init__, _load_known_faces. simpl. split; [|split].
  - intros person_dir ex Hin Hdir Hfile.
    apply (@foldM_stops _ _ _ _ person_dir); [assumption|].
    now apply (load_person_unreadable person_dir ex).
  - intros before person_dir after pre post ex -> Hbefore Hdir Hfiles Hpre.
    apply foldM_first_raise.
    + intros s p Hin. apply load_person_readable.
      intros Hp file Hfile. exact (Hbefore p file Hin Hp Hfile).
    + now apply (load_person_first_unreadable person_dir pre post).
  - intro Hreadable. apply foldM_returns.
    intros s person_dir Hin. apply load_person_readable.
    intros Hp file Hfile. exact (Hreadable person_dir file Hin Hp Hfile).
Qed.

End LegacyLoad.

(** Witness of X11: the legacy sample directory. *)
Lemma legacy_loaded_recognizer_is_safe_witness :
  exists self,
    simple_face_recognizer_load.__post_init__ (B := line_backend)
      Fixture.encodings_in Fixture.legacy_faces 0.8 = Ok self
    /\ simple_face_recognizer._encodings self = [1; 2]
    /\ simple_face_recognizer._names self = ["Alice"; "Bob"]%string
    /\ List.length (simple_face_recognizer._encodings self)
       = List.length (simple_face_recognizer._names self).
Proof.
  eexists. split; [reflexivity|]. split; [reflexivity|]. split; [reflexivity|].
  apply (@legacy_loaded_recognizer_is_safe line_backend Fixture.encodings_in
           Fixture.legacy_faces 0.8 _ eq_refl).
Defined.

(** Witness of X12: an unreadable file in the second sub-directory aborts
    the load with the exception of the read. *)
Lemma legacy_load_fails_on_unreadable_image_witness :
  simple_face_recognizer_load.__post_init__ (B := line_backend)
    Fixture.encodings_in Fixture.broken_faces 0.8 = Raise ValueError
  /\ exists ex',
       simple_face_recognizer_load.__post_init__ (B := line_backend)
         Fixture.encodings_in Fixture.broken_faces 0.8 = Raise ex'.
Proof.
  split.
  - apply (proj1 (proj2 (@legacy_load_fails_on_unreadable_image line_backend
                           Fixture.encodings_in _ 0.8))
             [pathlib.mkEntry "Alice" true [Ok [Sample.one_face 1]]]
             (pathlib.mkEntry "Bob" true
                [Raise ValueError; Ok [Sample.one_face 2]])
             [] [] [Ok [Sample.one_face 2]] ValueError).
    + reflexivity.
    + intros p file [<- | []] _ [<- | []]. now eexists.
    + reflexivity.
    + reflexivity.
    + intros file [].
  - apply (proj1 (@legacy_load_fails_on_unreadable_image line_backend
                    Fixture.encodings_in _ 0.8)
             (pathlib.mkEntry "Bob" true
                [Raise ValueError; Ok [Sample.one_face 2]]) ValueError).
    + right. left. reflexivity.
    + reflexivity.
    + left. reflexivity.
Defined.

(** ** Key polling and pixel boxes *)

(** X13.  The window asks to quit exactly when the low byte of what
    [cv2.waitKey] returned is 27 (ESC) or 113 (["q"]): higher bits of the
    key code are ignored, and the value -1 of a poll without a key press
    keeps the loop going. *)
Theorem quit_keys_are_esc_and_q (waitKey : Z) :
  (video_view.process_events waitKey = false
   <-> (waitKey mod 256 = 27 \/ waitKey mod 256 = 113)%Z)
  /\ video_view.process_events (waitKey + 256) = video_view.process_events waitKey
  /\ video_view.process_events (-1) = true.
Proof.
  assert (Hland : forall k, Z.land k 255 = (k mod 256)%Z).
  { intro k. change 255%Z with (Z.ones 8). now rewrite Z.land_ones by lia. }
  unfold video_view.process_events. rewrite !Hland.
  replace ((waitKey + 256) mod 256)%Z with (waitKey mod 256)%Z
    by (rewrite <- (Z.mul_1_l 256) at 2; now rewrite Z.mod_add by lia).
  repeat split; try reflexivity.
  - destruct (waitKey mod 256 =? 27)%Z eqn:E1;
      destruct (waitKey mod 256 =? 113)%Z eqn:E2; simpl;
      rewrite ?Z.eqb_eq in *; auto; discriminate.
  - intros [H|H]; rewrite H; reflexivity.
Qed.

Lemma trunc_mono (x y : Q) :
  x <= y ->
  (Z.quot (Qnum x) (Zpos (Qden x)) <= Z.quot (Qnum y) (Zpos (Qden y)))%Z.
Proof.
  destruct x as [a b], y as [c d]. unfold Qle. simpl. intro H.
  rewrite <- (Z.quot_mul_cancel_r a (Zpos b) (Zpos d)) by lia.
  rewrite <- (Z.quot_mul_cancel_r c (Zpos d) (Zpos b)) by lia.
  rewrite (Z.mul_comm (Zpos d) (Zpos b)).
  apply Z.quot_le_mono; lia.
Qed.

Lemma trunc_integer (x : Q) (z : Z) :
  x == inject_Z z -> Z.quot (Qnum x) (Zpos (Qden x)) = z.
Proof.
  destruct x as [a b]. unfold Qeq. simpl. intro H.
  rewrite Z.mul_1_r in H. rewrite H. apply Z.quot_mul. lia.
Qed.

Section BoxExtras.
Context {B : Backend}.
Import insightface_service.

(** X14.  For a detector box whose four coordinates [astype(int)]
    truncates without overflow, the overlay keeps the orientation of the
    box: when [x1 <= x2] and [y1 <= y2] the overlay has its left edge not
    right of its right edge and its top not below its bottom; and
    coordinates that are whole numbers are taken over unchanged. *)
Theorem overlay_boxes_upright (service : InsightFaceService) (frame : Image)
    (overlays : list video_view.VideoOverlayFace) :
  face_controller.process_frame service frame = Ok overlays ->
  Forall2 (fun face overlay =>
             let '(x1, y1, x2, y2) := bbox face in
             fits_int x1 -> fits_int y1 -> fits_int x2 -> fits_int y2 ->
             (x1 <= x2 -> y1 <= y2 -> upright (video_view.box overlay))
             /\ forall left_ top right_ bottom,
                  x1 == inject_Z left_ -> y1 == inject_Z top ->
                  x2 == inject_Z right_ -> y2 == inject_Z bottom ->
                  video_view.box overlay = (top, right_, bottom, left_))
          (get frame) overlays.
Proof.
  intro H.
  unfold face_controller.process_frame, analyze in H.
  destruct (mapM (analyze_face service) (get frame)) as [faces|] eqn:E;
    cbn [bind] in H; [|discriminate].
  injection H as <-. apply mapM_Forall2 in E.
  induction E as [|face recognized fin fout Hhead Htail IH]; simpl;
    constructor; [|exact IH].
  unfold analyze_face in Hhead.
  destruct (bbox face) as [[[x1 y1] x2] y2].
  destruct (_match_embedding service (embedding face)) as [r|];
    cbn [bind] in Hhead; [|discriminate].
  injection Hhead as <-. simpl. intros _ _ _ _. split.
  - intros Hx Hy. unfold Np.astype_int. split; now apply trunc_mono.
  - intros left_ top right_ bottom Hx1 Hy1 Hx2 Hy2. unfold Np.astype_int.
    now rewrite (trunc_integer Hx1), (trunc_integer Hy1),
                (trunc_integer Hx2), (trunc_integer Hy2).
Qed.

End BoxExtras.

(** Witness of X14: the box [(10.5, 20.25, 110, 140.75)] of the sample
    face becomes [(20, 110, 140, 10)]. *)
Lemma overlay_boxes_upright_witness :
  exists overlays,
    face_controller.process_frame Sample.alice [Sample.one_face 1.3]
    = Ok overlays
    /\ Forall (fun overlay => upright (video_view.box overlay)) overlays.
Proof.
  eexists. split; [reflexivity|].
  pose proof (@overlay_boxes_upright line_backend Sample.alice
                [Sample.one_face 1.3] _ eq_refl) as H.
  inversion H as [|face overlay faces overlays' Hhead Hrest]; subst.
  simpl in Hhead.
  destruct Hhead as [Hup _];
    try (unfold fits_int; split; reflexivity).
  constructor; [|constructor].
  apply Hup; discriminate.
Defined.

(** ** More on the frame-rate generator and the driver loop *)

Lemma next_fps_sign (perf_counter : nat -> Q) (g g' : helpers.fps_gen)
    (y : Q * Q) :
  helpers.next perf_counter g = Ok (y, g') ->
  0 <= snd y /\ (0 < snd y <-> 0 < fst y).
Proof.
  intro Hnext.
  destruct (match helpers.last_time g with
            | Some t => (t, helpers.calls g)
            | None => (perf_counter (helpers.calls g), S (helpers.calls g))
            end) as [last k] eqn:Hg.
  destruct (next_from perf_counter g Hg) as (fps & Hrun & Hpos & Hzero).
  rewrite Hrun in Hnext. injection Hnext as <- _. simpl.
  destruct (Qlt_le_dec 0 (perf_counter k - last)) as [Hd|Hd].
  - specialize (Hpos Hd).
    assert (0 < / (perf_counter k - last)) by now apply Qinv_lt_0_compat.
    rewrite Hpos. split; [lra | tauto].
  - rewrite (Hzero Hd). split; [lra|]. split; intro; lra.
Qed.

(** X15.  The estimate the generator yields is never negative, whatever the
    clock does (even if it runs backwards), and it is positive exactly
    when the clock has advanced since the previous reading. *)
Theorem fps_estimate_never_negative (perf_counter : nat -> Q) (n : nat)
    (delta fps : Q) :
  helpers.nth_yield perf_counter n helpers.measure_fps = Ok (delta, fps) ->
  0 <= fps /\ (0 < fps <-> 0 < delta).
Proof.
  generalize helpers.measure_fps. revert delta fps.
  induction n as [|n IH]; intros delta fps g; simpl.
  - destruct (helpers.next perf_counter g) as [[y g']|] eqn:E;
      cbn [bind]; [|discriminate].
    intros [= Hy]. apply next_fps_sign in E. now rewrite Hy in E.
  - destruct (helpers.next perf_counter g) as [[y g']|] eqn:E;
      cbn [bind]; [|discriminate].
    apply IH.
Qed.

Section LoopExtras.
Context {B : Backend}.
Variable service : insightface_service.InsightFaceService.
Variable perf_counter : nat -> Q.
Import main.

(** Where a rendering in the trace of one pass comes from. *)
Lemma body_render (it : iteration) (fps fps' : Q) (frame : Image)
    (overlays : list video_view.VideoOverlayFace) :
  In (RenderFrame frame overlays fps') (fst (body service it fps)) ->
  face_controller.process_frame service frame = Ok overlays
  /\ fps' = fps
  /\ get_frame it = Ok (true, frame).
Proof.
  unfold body.
  destruct (get_frame it) as [[[|] frame0]|]; simpl;
    try (intros [H|[H|[]]]; discriminate);
    try (intros [H|[]]; discriminate).
  destruct (face_controller.process_frame service frame0) as [overlays0|] eqn:Ep;
    simpl; try (intros [H|[H|[]]]; discriminate).
  assert (Hshown : forall tail,
            (forall ev, In ev tail -> forall f o q, ev <> RenderFrame f o q) ->
            In (RenderFrame frame overlays fps')
               ([GetFrame; ProcessFrame frame0;
                 RenderFrame frame0 overlays0 fps] ++ tail) ->
            face_controller.process_frame service frame = Ok overlays
            /\ fps' = fps
            /\ Ok (true, frame0) = Ok (true, frame)).
  { intros tail Htail [H|[H|[H|H]]]; try discriminate.
    - injection H as <- <- <-. auto.
    - exfalso. exact (Htail _ H _ _ _ eq_refl). }
  destruct (render_frame it).
  - destruct (waitKey it) as [key|].
    + destruct (video_view.process_events key); simpl; intro H.
      * apply (Hshown [Tick]); [|exact H].
        intros ev [<-|[]]; discriminate.
      * apply (Hshown [Tick; Log INFO "User requested shutdown"]); [|exact H].
        intros ev [<-|[<-|[]]]; discriminate.
    + simpl. intro H. apply (Hshown [Tick]); [|exact H].
      intros ev [<-|[]]; discriminate.
  - simpl. intro H. apply (Hshown []); [|exact H].
    intros ev [].
Qed.

Lemma loop_render (script : list iteration) (frame : Image)
    (overlays : list video_view.VideoOverlayFace) (fps : Q) :
  forall g,
    In (RenderFrame frame overlays fps)
       (fst (loop service perf_counter script g)) ->
    face_controller.process_frame service frame = Ok overlays
    /\ 0 <= fps
    /\ exists it, In it script /\ get_frame it = Ok (true, frame).
Proof.
  induction script as [|it rest IH]; intros g; simpl; [intros []|].
  destruct (helpers.next perf_counter g) as [[[delta fps0] g']|] eqn:En;
    simpl; [|intros []].
  pose proof (body_render it fps0 fps frame overlays) as Hbody.
  apply next_fps_sign in En. simpl in En.
  assert (Hhere : In (RenderFrame frame overlays fps)
                     (fst (body service it fps0)) ->
                  face_controller.process_frame service frame = Ok overlays
                  /\ 0 <= fps
                  /\ exists it0, In it0 (it :: rest)
                                 /\ get_frame it0 = Ok (true, frame)).
  { intro H. destruct (Hbody H) as (Hp & -> & Hread).
    split; [assumption|]. split; [tauto|]. exists it. simpl. auto. }
  destruct (body service it fps0) as [evs c]. simpl in Hhere.
  destruct c; simpl; try exact Hhere.
  specialize (IH g').
  destruct (loop service perf_counter rest g') as [tr st]. simpl in *.
  intro H. apply in_app_or in H. destruct H as [H|H]; [auto|].
  destruct (IH H) as (Hp & Hfps & it0 & Hin & Hread).
  split; [assumption|]. split; [assumption|]. exists it0. auto.
Qed.

(** The trace of [run] is the trace of the loop followed by what the
    handlers add. *)
Lemma run_trace_split (script : list iteration) :
  exists tail,
    fst (run service perf_counter script)
    = fst (loop service perf_counter script helpers.measure_fps) ++ tail
    /\ (tail = [] \/ tail = shutdown
        \/ tail = Log INFO "Interrupted by user" :: shutdown).
Proof.
  unfold run.
  destruct (loop service perf_counter script helpers.measure_fps)
    as [tr [[| |[]]|]]; simpl; eexists; split;
    try reflexivity; auto using app_nil_r.
  all: rewrite ?app_nil_r; auto.
Qed.

(** X16.  What is rendered is what was processed: every rendering in the
    trace of a run shows a frame that some pass read successfully,
    together with exactly the overlays [process_frame] returns for that
    frame and a frame-rate estimate that is not negative. *)
Theorem rendered_overlays_are_processed (script : list iteration)
    (frame : Image) (overlays : list video_view.VideoOverlayFace) (fps : Q) :
  In (RenderFrame frame overlays fps)
     (fst (run service perf_counter script)) ->
  face_controller.process_frame service frame = Ok overlays
  /\ 0 <= fps
  /\ exists it, In it script /\ get_frame it = Ok (true, frame).
Proof.
  destruct (run_trace_split script) as (tail & -> & Htail).
  intro H. apply in_app_or in H. destruct H as [H|H].
  - exact (loop_render script frame overlays fps _ H).
  - exfalso.
    destruct Htail as [-> | [-> | ->]]; simpl in H;
      repeat (destruct H as [H|H]; [discriminate|]); exact H.
Qed.

(** Once the loop has ended, further scripted passes change nothing. *)
Lemma loop_app_done (script more : list iteration) :
  forall g c,
    snd (loop service perf_counter script g) = Some c ->
    loop service perf_counter (script ++ more) g
    = loop service perf_counter script g.
Proof.
  induction script as [|it rest IH]; intros g c; simpl; [discriminate|].
  destruct (helpers.next perf_counter g) as [[[delta fps] g']|];
    [|reflexivity].
  destruct (body service it fps) as [evs ctl].
  destruct ctl; try reflexivity.
  specialize (IH g').
  destruct (loop service perf_counter rest g') as [tr st] eqn:El.
  simpl. intro Hst. now rewrite (IH c Hst).
Qed.

(** X17.  After the loop is left nothing more happens: once a run has
    ended (quit key, interrupt or error), the passes that the camera, the
    window and the keyboard could still have served are never asked for;
    the trace and the outcome stay what they were. *)
Theorem nothing_runs_after_exit (script more : list iteration) :
  snd (run service perf_counter script) <> StillLooping ->
  run service perf_counter (script ++ more)
  = run service perf_counter script.
Proof.
  unfold run.
  destruct (loop service perf_counter script helpers.measure_fps)
    as [tr st] eqn:El.
  destruct st as [c|]; [|simpl; congruence].
  intros _.
  rewrite (@loop_app_done script more helpers.measure_fps c)
    by (rewrite El; reflexivity).
  now rewrite El.
Qed.

Lemma body_one_read (it : iteration) (fps : Q) :
  occurrences is_get_frame (fst (body service it fps)) = 1%nat.
Proof.
  unfold body.
  destruct (get_frame it) as [[[|] frame]|]; simpl; auto.
  destruct (face_controller.process_frame service frame); simpl; auto.
  destruct (render_frame it); simpl; auto.
  destruct (waitKey it) as [key|]; simpl; auto.
  destruct (video_view.process_events key); simpl; auto.
Qed.

Lemma loop_reads (script : list iteration) :
  forall g,
    (occurrences is_get_frame (fst (loop service perf_counter script g))
     <= List.length script)%nat
    /\ (snd (loop service perf_counter script g) = None ->
        occurrences is_get_frame (fst (loop service perf_counter script g))
        = List.length script).
Proof.
  induction script as [|it rest IH]; intro g; simpl; [auto|].
  destruct (next_returns perf_counter g) as ([delta fps] & g' & ->).
  pose proof (body_one_read it fps) as Hone.
  destruct (body service it fps) as [evs c]. simpl in Hone.
  destruct c; simpl; try (split; [lia | discriminate]).
  specialize (IH g').
  destruct (loop service perf_counter rest g') as [tr st]. simpl in *.
  rewrite occurrences_app, Hone. destruct IH as [Hle Heq].
  split; [lia|]. intro Hst. rewrite (Heq Hst). reflexivity.
Qed.

(** X18.  The driver reads the camera at most once per pass, and while it
    is still looping it has read exactly once per pass, has closed no
    window and has released no camera. *)
Theorem one_read_per_pass (script : list iteration) :
  (occurrences is_get_frame (fst (run service perf_counter script))
   <= List.length script)%nat
  /\ (snd (run service perf_counter script) = StillLooping ->
      occurrences is_get_frame (fst (run service perf_counter script))
      = List.length script
      /\ occurrences is_view_close (fst (run service perf_counter script))
         = 0%nat
      /\ occurrences is_camera_shutdown
           (fst (run service perf_counter script)) = 0%nat).
Proof.
  pose proof (loop_reads script helpers.measure_fps) as [Hle Heq].
  pose proof (loop_no_cleanup service perf_counter script helpers.measure_fps)
    as [Hclose Hrelease].
  pose proof (loop_status service perf_counter script helpers.measure_fps)
    as Hstatus.
  unfold run.
  destruct (loop service perf_counter script helpers.measure_fps)
    as [tr st]. simpl in *.
  destruct st as [[| |[]]|]; simpl;
    rewrite ?occurrences_app; simpl;
    try (split; [unfold occurrences in *; simpl; lia | discriminate]).
  - congruence.
  - split; [assumption|]. intros _. auto.
Qed.

End LoopExtras.

Section ErrorExtras.
Context {B : Backend}.
Variable service : insightface_service.InsightFaceService.
Variable perf_counter : nat -> Q.
Import main.


End ErrorExtras.

(** Witness of X15: the clock of 40 ms at the fourth iteration. *)
Lemma fps_estimate_never_negative_witness :
  exists delta fps,
    helpers.nth_yield Sample.clock 3 helpers.measure_fps = Ok (delta, fps)
    /\ 0 <= fps /\ (0 < fps <-> 0 < delta).
Proof.
  eexists. eexists. split; [reflexivity|].
  apply (@fps_estimate_never_negative Sample.clock 3). reflexivity.
Defined.

(** Witness of X16: the one rendering of a run that quits on the first
    pass. *)
Lemma rendered_overlays_are_processed_witness :
  exists overlays fps,
    In (main.RenderFrame (B := line_backend) [Sample.one_face 1.3] overlays fps)
       (fst (main.run Sample.alice Sample.clock
               [Sample.seen [Sample.one_face 1.3] Sample.key_q]))
    /\ face_controller.process_frame Sample.alice [Sample.one_face 1.3]
       = Ok overlays
    /\ 0 <= fps.
Proof.
  eexists. eexists.
  assert (Hin : In (main.RenderFrame (B := line_backend) [Sample.one_face 1.3]
                      [ {| video_view.box := (20, 110, 140, 10)%Z;
                           video_view.label := "Alice";
                           video_view.confidence := 50 # 80 |} ]
                      (10000 # 400))
                   (fst (main.run Sample.alice Sample.clock
                           [Sample.seen [Sample.one_face 1.3] Sample.key_q])))
    by (vm_compute; auto).
  split; [exact Hin|].
  destruct (@rendered_overlays_are_processed line_backend Sample.alice
              Sample.clock _ _ _ _ Hin) as (Hp & Hfps & _).
  split; assumption.
Defined.

(** Witness of X17: passes scripted after the quit key are not reached. *)
Lemma nothing_runs_after_exit_witness :
  main.run Sample.alice Sample.clock
    ([Sample.seen [Sample.one_face 1.3] Sample.key_q] ++ Sample.five_passes)
  = main.run Sample.alice Sample.clock
      [Sample.seen [Sample.one_face 1.3] Sample.key_q].
Proof.
  apply (@nothing_runs_after_exit line_backend Sample.alice Sample.clock).
  discriminate.
Defined.

(** Witness of X18: the five passes, still looping. *)
Lemma one_read_per_pass_witness :
  main.occurrences is_get_frame
    (fst (main.run Sample.alice Sample.clock Sample.five_passes)) = 5%nat
  /\ main.occurrences main.is_view_close
       (fst (main.run Sample.alice Sample.clock Sample.five_passes)) = 0%nat
  /\ main.occurrences main.is_camera_shutdown
       (fst (main.run Sample.alice Sample.clock Sample.five_passes)) = 0%nat.
Proof.
  apply (proj2 (@one_read_per_pass line_backend Sample.alice Sample.clock
                  Sample.five_passes)).
  reflexivity.
Defined.


(** ** The whole of [run]: start-up, loop and shutdown *)

Section EntryExtras.
Context {B : Backend}.
Variable basename : string -> string.
Import entry.

Lemma count_app (p : event -> bool) (l1 l2 : list event) :
  count p (l1 ++ l2) = (count p l1 + count p l2)%nat.
Proof. unfold count. now rewrite filter_app, length_app. Qed.

Lemma count_driver (p : event -> bool) (q : main.event -> bool)
    (tr : list main.event) :
  (forall ev, p (Driver ev) = q ev) ->
  count p (map Driver tr) = main.occurrences q tr.
Proof.
  intro H. unfold count, main.occurrences.
  induction tr as [|ev tr IH]; simpl; [reflexivity|].
  rewrite H. destruct (q ev); simpl; now rewrite IH.
Qed.

(** X20.  The start-up check lets the application through exactly when the
    interpreter has a base prefix that differs from its prefix and the
    last component of the prefix is [.venv]; otherwise [run] logs its
    start, raises [RuntimeError] and has opened no camera. *)
Theorem venv_check_gates_startup (sys : sys_t) (CONFIG : config.AppConfig)
    (fs : string -> pathlib.Path (option Image))
    (perf_counter : nat -> Q) (script : list main.iteration) :
  (_ensure_running_in_venv basename sys = Ok tt
   <-> (exists b, base_prefix sys = Some b /\ prefix sys <> b)
       /\ basename (prefix sys) = ".venv"%string)
  /\ (_ensure_running_in_venv basename sys <> Ok tt ->
      run basename sys CONFIG fs perf_counter script
      = ([LoggerAdd "face_recognition_app.log";
          Log main.INFO "Starting Face Recognition App"],
         main.Propagated RuntimeError)).
Proof.
  unfold run, _ensure_running_in_venv. split.
  - destruct (base_prefix sys) as [b|].
    + destruct (String.eqb_spec (prefix sys) b) as [He|Hne]; simpl.
      * split; [discriminate|]. intros [(b' & [= <-] & Hneq) _]. congruence.
      * destruct (String.eqb_spec (basename (prefix sys)) ".venv") as [Hv|Hv];
          simpl.
        -- split; [|reflexivity]. intros _. split; [|assumption].
           exists b. auto.
        -- split; [discriminate|]. intros [_ Hv']. congruence.
    + rewrite String.eqb_refl. simpl.
      split; [discriminate|]. intros [(b & Hb & _) _]. discriminate.
  - destruct (negb _ || negb _); [reflexivity|]. congruence.
Qed.

(** X21.  When start-up fails after the check (a plain file where the
    gallery directory should be, or a configuration that does not select
    InsightFace), [run] raises before its [try]: the camera has been
    opened once and is never released, and no window is closed. *)
Theorem startup_failure_leaves_camera_open (sys : sys_t)
    (CONFIG : config.AppConfig) (fs : string -> pathlib.Path (option Image))
    (perf_counter : nat -> Q) (script : list main.iteration) :
  _ensure_running_in_venv basename sys = Ok tt ->
  config.use_insightface (config.face CONFIG) = false
  \/ fs (config.known_faces_dir (config.face CONFIG)) = pathlib.NotADirectory ->
  (snd (run basename sys CONFIG fs perf_counter script)
   = main.Propagated
       (if config.use_insightface (config.face CONFIG)
        then NotADirectoryError else RuntimeError))
  /\ count is_capture_open
       (fst (run basename sys CONFIG fs perf_counter script)) = 1%nat
  /\ count is_camera_release
       (fst (run basename sys CONFIG fs perf_counter script)) = 0%nat
  /\ count is_window_close
       (fst (run basename sys CONFIG fs perf_counter script)) = 0%nat.
Proof.
  intros Hvenv Hfail. unfold run. rewrite Hvenv.
  destruct (config.use_insightface (config.face CONFIG)) eqn:Euse.
  - destruct Hfail as [Hfail|Hfail]; [discriminate|].
    unfold insightface_service.__post_init__,
      insightface_service._load_known_faces.
    simpl. rewrite Hfail. simpl. auto.
  - simpl. auto.
Qed.

(** X22.  When every call of the start-up returns and the gallery load
    gives a service, the trace of [run] is the start-up (log, camera
    opened once, backend logged) followed by the trace of the loop and of
    what follows it on that service.  So once such a run has left its
    loop: if the shutdown log call and the window close return, the
    camera was opened once and released once and the window closed once;
    if one of these two raises, the camera that was opened is not
    released. *)
Theorem started_run_releases_what_it_opened (sys : sys_t)
    (CONFIG : config.AppConfig) (fs : string -> pathlib.Path (option Image))
    (s : entry_fallible.startup)
    (perf_counter : nat -> Q) (script : list main.iteration)
    (h : main_finally.handlers)
    (service : insightface_service.InsightFaceService) :
  entry_fallible.started basename sys CONFIG s ->
  insightface_service.__post_init__
    (fs (config.known_faces_dir (config.face CONFIG)))
    (config.recognition_tolerance (config.face CONFIG)) = Ok service ->
  exists startup,
    entry_fallible.run basename sys CONFIG fs s perf_counter script h
    = (startup
         ++ map Driver (fst (main_finally.run service perf_counter script h)),
       snd (main_finally.run service perf_counter script h))
    /\ count is_capture_open startup = 1%nat
    /\ count is_camera_release startup = 0%nat
    /\ count is_window_close startup = 0%nat
    /\ (snd (entry_fallible.run basename sys CONFIG fs s perf_counter script h)
        <> main.StillLooping ->
        (main_finally.log_shutting_down h = Ok tt ->
         main_finally.view_close h = Ok tt ->
         count is_capture_open
           (fst (entry_fallible.run basename sys CONFIG fs s perf_counter
                   script h)) = 1%nat
         /\ count is_camera_release
              (fst (entry_fallible.run basename sys CONFIG fs s perf_counter
                      script h)) = 1%nat
         /\ count is_window_close
              (fst (entry_fallible.run basename sys CONFIG fs s perf_counter
                      script h)) = 1%nat)
        /\ (forall e,
              main_finally.log_shutting_down h = Raise e
              \/ main_finally.view_close h = Raise e ->
              count is_capture_open
                (fst (entry_fallible.run basename sys CONFIG fs s perf_counter
                        script h)) = 1%nat
              /\ count is_camera_release
                   (fst (entry_fallible.run basename sys CONFIG fs s
                           perf_counter script h)) = 0%nat)).
Proof.
  intros (Hadd & Hstart & Hvenv & Hcap & Hw & Hh & Huse & Hbackend
          & Hface & Hprepare) Hinit.
  eexists ([LoggerAdd _; Log _ _; Capture _; Capture _; Capture _; Log _ _]).
  assert (Hrun : entry_fallible.run basename sys CONFIG fs s perf_counter
                   script h
                 = ([LoggerAdd "face_recognition_app.log";
                     Log main.INFO "Starting Face Recognition App";
                     Capture (camera_model.VideoCapture
                                (config.camera_index (config.video CONFIG)));
                     Capture (camera_model.set_
                                camera_model.CAP_PROP_FRAME_WIDTH
                                (config.width (config.video CONFIG)));
                     Capture (camera_model.set_
                                camera_model.CAP_PROP_FRAME_HEIGHT
                                (config.height (config.video CONFIG)));
                     Log main.INFO
                       "Using InsightFace backend: model_pack='{}', ctx_id={}, det_size={}"]
                      ++ map Driver
                           (fst (main_finally.run service perf_counter
                                   script h)),
                    snd (main_finally.run service perf_counter script h))).
  { unfold entry_fallible.run, entry_fallible.step.
    rewrite Hadd, Hstart, Hvenv, Hcap, Hw, Hh, Huse, Hbackend, Hface,
      Hprepare, Hinit.
    destruct (main_finally.run service perf_counter script h) as [tr st].
    reflexivity. }
  split; [exact Hrun|].
  split; [reflexivity|]. split; [reflexivity|]. split; [reflexivity|].
  rewrite Hrun. cbn [fst snd]. intro Hexit.
  destruct (run_left_trace service perf_counter script h Hexit)
    as (passes & Htrace & Hclose & Hrelease & _).
  rewrite Htrace.
  set (startup := [LoggerAdd _; Log _ _; Capture _; Capture _; Capture _;
                   Log _ _]).
  assert (Hopen : count is_capture_open startup = 1%nat) by reflexivity.
  assert (Hkept : count is_camera_release startup = 0%nat) by reflexivity.
  assert (Hshut : count is_window_close startup = 0%nat) by reflexivity.
  assert (Hnone : forall tr : list main.event,
            main.occurrences (fun _ => false) tr = 0%nat)
    by (induction tr; simpl; auto).
  rewrite !count_app, Hopen, Hkept, Hshut.
  rewrite (count_driver is_capture_open (fun _ => false)) by reflexivity.
  rewrite (count_driver is_camera_release main.is_camera_shutdown)
    by reflexivity.
  rewrite (count_driver is_window_close main.is_view_close) by reflexivity.
  rewrite !occurrences_app, Hclose, Hrelease, !Hnone.
  unfold main_finally.finally_clause.
  split.
  - intros Hlog Hwin. rewrite Hlog, Hwin.
    destruct (main_finally.camera_shutdown h); repeat split; reflexivity.
  - intros e [Hlog | Hwin].
    + rewrite Hlog. split; reflexivity.
    + rewrite Hwin.
      destruct (main_finally.log_shutting_down h); split; reflexivity.
Qed.

End EntryExtras.

Section ShippedExtras.
Context {B : Backend}.

Lemma post_init_service (dir : pathlib.Path (option Image)) (t : Q)
    (service : insightface_service.InsightFaceService) :
  insightface_service.__post_init__ dir t = Ok service ->
  paired service /\ insightface_service.tolerance service = t.
Proof.
  intro Hinit. split.
  - unfold insightface_service.__post_init__ in Hinit.
    eapply load_known_faces_paired; [|exact Hinit]. reflexivity.
  - unfold insightface_service.__post_init__,
      insightface_service._load_known_faces in Hinit.
    destruct dir as [| |entries]; simpl in Hinit; try discriminate.
    + now injection Hinit as <-.
    + injection Hinit as <-.
      now destruct (load_persons_extends entries
                      {| insightface_service.known_faces_dir :=
                           pathlib.Directory entries;
                         insightface_service.tolerance := t;
                         insightface_service._encodings := [];
                         insightface_service._names := [] |})
        as (_ & _ & Htol & _).
Qed.

(** X23.  Either shipped configuration (CPU or GPU) selects InsightFace,
    the gallery path [data/known_faces] and the threshold 0.8; so the
    service its gallery load gives has the threshold 0.8, and its matcher
    never divides by zero, whatever the gallery and the query. *)
Theorem shipped_threshold_never_divides_by_zero (CONFIG : config.AppConfig)
    (dir : pathlib.Path (option Image))
    (service : insightface_service.InsightFaceService) :
  CONFIG = config.CPU_CONFIG \/ CONFIG = config.GPU_CONFIG ->
  insightface_service.__post_init__ dir
    (config.recognition_tolerance (config.face CONFIG)) = Ok service ->
  config.use_insightface (config.face CONFIG) = true
  /\ config.known_faces_dir (config.face CONFIG) = "data/known_faces"%string
  /\ insightface_service.tolerance service = 0.8
  /\ forall e : Embedding,
       insightface_service._match_embedding service e
       <> Raise ZeroDivisionError.
Proof.
  intros Hcfg Hinit.
  assert (Hshape : config.use_insightface (config.face CONFIG) = true
                   /\ config.known_faces_dir (config.face CONFIG)
                      = "data/known_faces"%string
                   /\ config.recognition_tolerance (config.face CONFIG) = 0.8)
    by (destruct Hcfg as [-> | ->]; repeat split).
  destruct Hshape as (Huse & Hdir & Htol).
  rewrite Htol in Hinit.
  destruct (post_init_service _ _ Hinit) as [_ Hservice].
  repeat split; try assumption.
  intros e Hraise.
  apply match_division_inversion in Hraise.
  destruct Hraise as [Hzero _]. rewrite Hservice in Hzero. discriminate.
Qed.

End ShippedExtras.

(** Witness of X20: an interpreter outside any virtual environment. *)
Lemma venv_check_gates_startup_witness :
  entry.run (B := line_backend) Fixture.basename Fixture.system_python
    config.CONFIG Fixture.disk Sample.clock Sample.five_passes
  = ([entry.LoggerAdd "face_recognition_app.log";
      entry.Log main.INFO "Starting Face Recognition App"],
     main.Propagated RuntimeError).
Proof.
  apply (proj2 (@venv_check_gates_startup line_backend Fixture.basename
                  Fixture.system_python config.CONFIG Fixture.disk
                  Sample.clock Sample.five_passes)).
  discriminate.
Defined.

(** Witness of X21: a plain file at the configured gallery path. *)
Lemma startup_failure_leaves_camera_open_witness :
  snd (entry.run (B := line_backend) Fixture.basename Fixture.in_venv
         config.CONFIG Fixture.file_disk Sample.clock Sample.five_passes)
  = main.Propagated NotADirectoryError
  /\ entry.count entry.is_capture_open
       (fst (entry.run (B := line_backend) Fixture.basename Fixture.in_venv
               config.CONFIG Fixture.file_disk Sample.clock
               Sample.five_passes)) = 1%nat
  /\ entry.count entry.is_camera_release
       (fst (entry.run (B := line_backend) Fixture.basename Fixture.in_venv
               config.CONFIG Fixture.file_disk Sample.clock
               Sample.five_passes)) = 0%nat
  /\ entry.count entry.is_window_close
       (fst (entry.run (B := line_backend) Fixture.basename Fixture.in_venv
               config.CONFIG Fixture.file_disk Sample.clock
               Sample.five_passes)) = 0%nat.
Proof.
  apply (@startup_failure_leaves_camera_open line_backend Fixture.basename
           Fixture.in_venv config.CONFIG Fixture.file_disk Sample.clock
           Sample.five_passes).
  - reflexivity.
  - right. reflexivity.
Defined.

(** Witness of X22: the shipped configuration over the sample directory,
    quitting on the first pass, the shutdown calls returning. *)
Lemma started_run_releases_what_it_opened_witness :
  entry.count entry.is_capture_open
    (fst (entry_fallible.run (B := line_backend) Fixture.basename
            Fixture.in_venv config.CONFIG Fixture.disk
            entry_fallible.returning Sample.clock
            [Sample.seen [Sample.one_face 1.3] Sample.key_q]
            main_finally.returning)) = 1%nat
  /\ entry.count entry.is_camera_release
       (fst (entry_fallible.run (B := line_backend) Fixture.basename
               Fixture.in_venv config.CONFIG Fixture.disk
               entry_fallible.returning Sample.clock
               [Sample.seen [Sample.one_face 1.3] Sample.key_q]
               main_finally.returning)) = 1%nat
  /\ entry.count entry.is_window_close
       (fst (entry_fallible.run (B := line_backend) Fixture.basename
               Fixture.in_venv config.CONFIG Fixture.disk
               entry_fallible.returning Sample.clock
               [Sample.seen [Sample.one_face 1.3] Sample.key_q]
               main_finally.returning)) = 1%nat.
Proof.
  destruct (@started_run_releases_what_it_opened line_backend
              Fixture.basename Fixture.in_venv config.CONFIG Fixture.disk
              entry_fallible.returning Sample.clock
              [Sample.seen [Sample.one_face 1.3] Sample.key_q]
              main_finally.returning _
              ltac:(repeat split) eq_refl)
    as (startup & _ & _ & _ & _ & Hexit).
  apply Hexit; [discriminate | reflexivity | reflexivity].
Defined.

(** Witness of X23: the shipped configuration over the sample directory. *)
Lemma shipped_threshold_never_divides_by_zero_witness :
  exists service,
    insightface_service.__post_init__ (B := line_backend)
      Sample.known_faces 0.8 = Ok service
    /\ insightface_service.tolerance service = 0.8
    /\ forall e : Q,
         insightface_service._match_embedding service e
         <> Raise ZeroDivisionError.
Proof.
  eexists. split; [reflexivity|].
  apply (@shipped_threshold_never_divides_by_zero line_backend config.CONFIG
           Sample.known_faces _ (or_introl eq_refl) eq_refl).
Defined.

(** ** The legacy detector *)

Section DetectorExtras.
Variable Frame : Type.
Variable cvtColor : Frame -> outcome Frame.
Variable resize : Frame -> Q -> Q -> outcome Frame.
Variable face_locations : Frame -> string -> outcome (list (Z * Z * Z * Z)).
Import face_detector.

(** The guarded reciprocal of the scale factor never raises. *)
Lemma factor_returns (s : Q) :
  exists factor,
    (if negb (Qeq_bool s 0) then Py.truediv 1 s else Ok 1) = Ok factor.
Proof.
  unfold Py.truediv. destruct (Qeq_bool s 0); simpl; now eexists.
Qed.

(** X24.  [detect_faces] adds no failure of its own, a zero scale factor
    included (its division is guarded): what it raises was raised by the
    colour conversion, the resize or the face locator; and what it
    returns has one box per face located, the resize being skipped
    exactly when the scale factor is 1. *)
Theorem detect_faces_relays_errors (self : SimpleFaceDetector)
    (frame_bgr : Frame) :
  (forall e,
     detect_faces cvtColor resize face_locations self frame_bgr = Raise e ->
     cvtColor frame_bgr = Raise e
     \/ exists rgb,
          cvtColor frame_bgr = Ok rgb
          /\ ((~ scale_factor self == 1
               /\ resize rgb (scale_factor self) (scale_factor self) = Raise e)
              \/ exists small, face_locations small (model self) = Raise e))
  /\ (forall boxes,
        detect_faces cvtColor resize face_locations self frame_bgr = Ok boxes ->
        exists rgb small boxes_small,
          cvtColor frame_bgr = Ok rgb
          /\ (scale_factor self == 1 -> small = rgb)
          /\ (~ scale_factor self == 1 ->
              resize rgb (scale_factor self) (scale_factor self) = Ok small)
          /\ face_locations small (model self) = Ok boxes_small
          /\ List.length boxes = List.length boxes_small).
Proof.
  unfold detect_faces.
  destruct (cvtColor frame_bgr) as [rgb|ex]; cbn [bind];
    [|split; [intros e [= <-]; now left | discriminate]].
  destruct (factor_returns (scale_factor self)) as [factor Hfactor].
  destruct (Qeq_bool (scale_factor self) 1) eqn:Eone; simpl.
  - apply Qeq_bool_iff in Eone.
    destruct (face_locations rgb (model self)) as [boxes_small|ex] eqn:El;
      cbn [bind].
    + rewrite Hfactor. cbn [bind]. split; [discriminate|].
      intros boxes [= <-]. exists rgb, rgb, boxes_small.
      rewrite length_map. repeat split; auto. intro Hne. contradiction.
    + split; [|discriminate]. intros e [= <-]. right. exists rgb.
      split; [reflexivity|]. right. eauto.
  - apply Qeq_bool_neq in Eone.
    destruct (resize rgb (scale_factor self) (scale_factor self))
      as [small|ex] eqn:Er; cbn [bind].
    + destruct (face_locations small (model self)) as [boxes_small|ex] eqn:El;
        cbn [bind].
      * rewrite Hfactor. cbn [bind]. split; [discriminate|].
        intros boxes [= <-]. exists rgb, small, boxes_small.
        rewrite length_map. repeat split; auto. intro He. contradiction.
      * split; [|discriminate]. intros e [= <-]. right. exists rgb.
        split; [reflexivity|]. right. eauto.
    + split; [|discriminate]. intros e [= <-]. right. exists rgb.
      split; [reflexivity|]. left. auto.
Qed.

Lemma rescale_whole (s : Q) (k : positive) (b : Z * Z * Z * Z) :
  s == 1 # k -> rescale (1 / s) b = times k b.
Proof.
  intro Hs. destruct b as [[[top right_] bottom] left_].
  assert (Hk : forall z, PyNum.int (inject_Z z * (1 / s)) = (z * Zpos k)%Z).
  { intro z. unfold PyNum.int. apply trunc_integer.
    rewrite Hs. rewrite inject_Z_mult. unfold Qdiv, Qinv. simpl.
    apply Qmult_comp; [reflexivity|]. unfold Qeq. simpl. lia. }
  unfold rescale, times. now rewrite !Hk.
Qed.

(** X25.  With a scale factor [1/k] for [k] a power of two (the default
    0.25 is [1/4]), where the reciprocal and its products with pixel
    coordinates are exact in floating point, the boxes returned are exactly
    the boxes located on the reduced frame multiplied by [k], in the same
    order; for [k = 1] the frame is not resized and the boxes are those
    located on it. *)
Theorem detect_faces_scales_boxes_back (self : SimpleFaceDetector)
    (frame_bgr rgb small : Frame) (k : positive)
    (boxes_small : list (Z * Z * Z * Z)) :
  power_of_two k ->
  scale_factor self == 1 # k ->
  Forall exact_in_double boxes_small ->
  cvtColor frame_bgr = Ok rgb ->
  (if (k =? 1)%positive then Ok rgb
   else resize rgb (scale_factor self) (scale_factor self)) = Ok small ->
  face_locations small (model self) = Ok boxes_small ->
  detect_faces cvtColor resize face_locations self frame_bgr = Ok (map (times k) boxes_small).
Proof.
  intros _ Hs _ Hrgb Hsmall Hlocate.
  unfold detect_faces. rewrite Hrgb. cbn [bind].
  assert (Hone : Qeq_bool (scale_factor self) 1 = (k =? 1)%positive).
  { destruct (Pos.eqb_spec k 1) as [->|Hk].
    - now apply Qeq_bool_iff.
    - destruct (Qeq_bool (scale_factor self) 1) eqn:E; [|reflexivity].
      apply Qeq_bool_iff in E. rewrite Hs in E.
      unfold Qeq in E. simpl in E. exfalso. apply Hk. lia. }
  assert (Hzero : Qeq_bool (scale_factor self) 0 = false).
  { destruct (Qeq_bool (scale_factor self) 0) eqn:E; [|reflexivity].
    apply Qeq_bool_iff in E. rewrite Hs in E. discriminate. }
  rewrite Hone.
  assert (Hresized :
            (if negb (k =? 1)%positive
             then resize rgb (scale_factor self) (scale_factor self)
             else Ok rgb) = Ok small)
    by (destruct (k =? 1)%positive; exact Hsmall).
  rewrite Hresized. cbn [bind]. rewrite Hlocate. cbn [bind].
  rewrite Hzero. simpl. unfold Py.truediv. rewrite Hzero. cbn [bind].
  f_equal. apply map_ext. intro b. now apply rescale_whole.
Qed.

End DetectorExtras.

(** Witness of X24 and of X25: two boxes located on a frame reduced to a
    quarter come back multiplied by four. *)
Lemma detect_faces_relays_errors_witness :
  exists rgb small boxes_small,
    Fixture.keep_frame [(10, 50, 40, 20); (0, 7, 9, 3)]%Z = Ok rgb
    /\ (face_detector.scale_factor Fixture.quarter_scale == 1 -> small = rgb)
    /\ (~ face_detector.scale_factor Fixture.quarter_scale == 1 ->
        Fixture.resize_frame rgb 0.25 0.25 = Ok small)
    /\ Fixture.locate small "hog" = Ok boxes_small
    /\ List.length [(40, 200, 160, 80); (0, 28, 36, 12)]%Z
       = List.length boxes_small.
Proof.
  apply (proj2 (@detect_faces_relays_errors _ Fixture.keep_frame
                  Fixture.resize_frame Fixture.locate Fixture.quarter_scale
                  [(10, 50, 40, 20); (0, 7, 9, 3)]%Z)).
  reflexivity.
Defined.

Lemma detect_faces_scales_boxes_back_witness :
  face_detector.detect_faces Fixture.keep_frame Fixture.resize_frame
    Fixture.locate Fixture.quarter_scale [(10, 50, 40, 20); (0, 7, 9, 3)]%Z
  = Ok [(40, 200, 160, 80); (0, 28, 36, 12)]%Z.
Proof.
  apply (@detect_faces_scales_boxes_back _ Fixture.keep_frame
           Fixture.resize_frame Fixture.locate Fixture.quarter_scale
           [(10, 50, 40, 20); (0, 7, 9, 3)]%Z
           [(10, 50, 40, 20); (0, 7, 9, 3)]%Z
           [(10, 50, 40, 20); (0, 7, 9, 3)]%Z 4
           [(10, 50, 40, 20); (0, 7, 9, 3)]%Z); try reflexivity.
  - exists 2%nat. split; [lia | reflexivity].
  - repeat constructor; simpl; lia.
Defined.

(** ** What is drawn for a face *)

Lemma round_half_even_within (x : Q) (lo hi : Z) :
  inject_Z lo <= x -> x <= inject_Z hi ->
  (lo <= PyNum.round_half_even x <= hi)%Z.
Proof.
  intros Hlo Hhi.
  pose proof (Qfloor_le x) as Hfloor.
  pose proof (Qlt_floor x) as Hnext.
  rewrite inject_Z_plus in Hnext. change (inject_Z 1) with 1 in Hnext.
  assert (Hf_lo : (lo <= Qfloor x)%Z).
  { apply Z.lt_succ_r. rewrite Zlt_Qlt. unfold Z.succ.
    rewrite inject_Z_plus. change (inject_Z 1) with 1. lra. }
  assert (Hf_hi : (Qfloor x <= hi)%Z) by (rewrite Zle_Qle; lra).
  assert (Hup : 1 # 2 <= x - inject_Z (Qfloor x) -> (Qfloor x + 1 <= hi)%Z).
  { intro Hhalf. apply Z.lt_succ_r. rewrite Zlt_Qlt. unfold Z.succ.
    rewrite !inject_Z_plus. change (inject_Z 1) with 1. lra. }
  unfold PyNum.round_half_even.
  destruct (Py.ltb (x - inject_Z (Qfloor x)) (1 # 2)) eqn:E1.
  - lia.
  - apply ltb_false in E1. specialize (Hup E1).
    destruct (Py.ltb (1 # 2) (x - inject_Z (Qfloor x))); [lia|].
    destruct (Z.even (Qfloor x)); lia.
Qed.

Section DrawExtras.
Context {B : Backend}.
Import video_view video_view_draw.

(** X26.  Each face that [process_frame] returns is drawn by three calls:
    its box with line width 2, a filled strip of 20 pixels at the bottom
    of the box, and in white the text "label (n%)" where [n] is a whole
    number from 0 to 100 without a sign; box and strip are red for the
    label ["Unknown"] and green for any other label. *)
Theorem faces_are_drawn_with_percentages
    (service : insightface_service.InsightFaceService) (frame : Image)
    (overlays : list VideoOverlayFace) :
  face_controller.process_frame service frame = Ok overlays ->
  Forall (fun overlay =>
            exists n,
              (0 <= n <= 100)%Z
              /\ draw_face overlay
                 = let '(top, right_, bottom, left_) := box overlay in
                   let color :=
                     if String.eqb (label overlay) "Unknown"
                     then (0, 0, 255)%Z else (0, 255, 0)%Z in
                   [ rectangle (left_, top) (right_, bottom) color 2;
                     rectangle (left_, bottom - 20)%Z (right_, bottom) color
                       (-1)%Z;
                     putText
                       (label overlay ++ " (" ++ PyNum.digits n ++ "%)")%string
                       (left_ + 2, bottom - 5)%Z 0.5 (255, 255, 255)%Z 1 ])
         overlays.
Proof.
  intro Hframe.
  assert (Hrange : Forall (fun o => 0 <= confidence o /\ confidence o <= 1)
                     overlays).
  { unfold face_controller.process_frame, insightface_service.analyze in Hframe.
    destruct (mapM (insightface_service.analyze_face service) (get frame))
      as [faces|] eqn:E; cbn [bind] in Hframe; [|discriminate].
    injection Hframe as <-. apply mapM_Forall2 in E.
    induction E as [|face recognized fin fout Hhead Htail IH]; simpl;
      constructor; [|exact IH].
    unfold insightface_service.analyze_face in Hhead.
    destruct (bbox face) as [[[x1 y1] x2] y2].
    destruct (insightface_service._match_embedding service (embedding face))
      as [r|] eqn:Er; cbn [bind] in Hhead; [|discriminate].
    injection Hhead as <-. simpl.
    exact (match_embedding_confidence_range _ _ Er). }
  clear Hframe. induction Hrange as [|overlay rest [Hlo Hhi] Hrest IH];
    constructor; [|exact IH].
  exists (PyNum.round_half_even (Qabs (confidence overlay * 100))).
  assert (Hpct : 0 <= confidence overlay * 100
                 /\ confidence overlay * 100 <= 100) by (split; lra).
  destruct Hpct as [Hp0 Hp100].
  split.
  - apply round_half_even_within.
    + change (inject_Z 0) with 0. apply Qabs_nonneg.
    + rewrite (Qabs_pos _ Hp0). exact Hp100.
  - unfold draw_face, PyNum.format_0f, PyNum.sign, FILLED.
    destruct (box overlay) as [[[top right_] bottom] left_].
    assert (Hsign : Py.ltb (confidence overlay * 100) 0 = false)
      by (apply ltb_false; exact Hp0).
    rewrite Hsign. simpl.
    destruct (String.eqb (label overlay) "Unknown"); reflexivity.
Qed.

End DrawExtras.

(** Witness of X26: an unknown face and Alice at distance 0.3, drawn in
    red with 0% and in green with 62% (62.5 rounds to the even 62). *)
Lemma faces_are_drawn_with_percentages_witness :
  exists overlays,
    face_controller.process_frame Sample.alice
      [Sample.one_face 5; Sample.one_face 1.3] = Ok overlays
    /\ flat_map video_view_draw.draw_face overlays
       = [ video_view_draw.rectangle (10, 20)%Z (110, 140)%Z (0, 0, 255)%Z 2;
           video_view_draw.rectangle (10, 120)%Z (110, 140)%Z (0, 0, 255)%Z
             (-1)%Z;
           video_view_draw.putText "Unknown (0%)" (12, 135)%Z 0.5
             (255, 255, 255)%Z 1;
           video_view_draw.rectangle (10, 20)%Z (110, 140)%Z (0, 255, 0)%Z 2;
           video_view_draw.rectangle (10, 120)%Z (110, 140)%Z (0, 255, 0)%Z
             (-1)%Z;
           video_view_draw.putText "Alice (62%)" (12, 135)%Z 0.5
             (255, 255, 255)%Z 1 ]
    /\ Forall (fun overlay =>
                 exists n,
                   (0 <= n <= 100)%Z
                   /\ video_view_draw.draw_face overlay
                      = let '(top, right_, bottom, left_) :=
                          video_view.box overlay in
                        let color :=
                          if String.eqb (video_view.label overlay) "Unknown"
                          then (0, 0, 255)%Z else (0, 255, 0)%Z in
                        [ video_view_draw.rectangle (left_, top)
                            (right_, bottom) color 2;
                          video_view_draw.rectangle (left_, bottom - 20)%Z
                            (right_, bottom) color (-1)%Z;
                          video_view_draw.putText
                            (video_view.label overlay ++ " ("
                               ++ PyNum.digits n ++ "%)")%string
                            (left_ + 2, bottom - 5)%Z 0.5
                            (255, 255, 255)%Z 1 ])
         overlays.
Proof.
  eexists. split; [reflexivity|]. split; [reflexivity|].
  exact (@faces_are_drawn_with_percentages line_backend Sample.alice
           [Sample.one_face 5; Sample.one_face 1.3] _ eq_refl).
Defined.
